(** * Knowledge-base selector of sabba-structures

    Shallow embedding of [sabba_multi_knowledge_single_model/knowledge_bases.py]
    and proofs about it.

    Conventions of the embedding.
    - A Python [str] is a [string]; each [ascii] stands for the code point
      of the same number, so the strings covered are those whose code
      points are below 256.  [lower] and [isspace] follow CPython on
      that range.
    - A Python [dict] is a [gmap]; a dict comprehension inserts the
      entries from left to right.
    - [print] appends one line to the standard output, which is threaded
      through the functions that print.  A printed line is a list of code
      points, since three literals of the source hold code points above 255.
      This standard output takes every line; [Encoded] has the selector on
      a standard output with an encoding, where [print] raises on a line
      the encoding does not cover.
    - [None] for an optional value is [None] of [option]. *)

From Stdlib Require Import NArith Ascii String DecimalString.
From stdpp Require Import base option list gmap strings.

Local Open Scope string_scope.
Local Open Scope list_scope.

(** ** Python [str] operations used by the module *)

Module Str.

(** [c.lower()] for one code point below 256: the ASCII capitals and the
    Latin-1 capitals U+00C0..U+00DE without U+00D7 move up by 32. *)
Definition lower_char (c : ascii) : ascii :=
  let n := N_of_ascii c in
  if ((65 <=? n) && (n <=? 90)
      || (192 <=? n) && (n <=? 222) && negb (n =? 215))%N
  then ascii_of_N (n + 32)
  else c.

(** [s.lower()] *)
Fixpoint lower (s : string) : string :=
  match s with
  | EmptyString => EmptyString
  | String c s' => String (lower_char c) (lower s')
  end.

(** [c.isspace()] for one code point below 256. *)
Definition isspace (c : ascii) : bool :=
  let n := N_of_ascii c in
  ((9 <=? n) && (n <=? 13) || (28 <=? n) && (n <=? 32)
   || (n =? 133) || (n =? 160))%N.

Fixpoint lstrip (s : string) : string :=
  match s with
  | EmptyString => EmptyString
  | String c s' => if isspace c then lstrip s' else s
  end.

Fixpoint rstrip (s : string) : string :=
  match s with
  | EmptyString => EmptyString
  | String c s' =>
      match rstrip s' with
      | EmptyString => if isspace c then EmptyString else String c EmptyString
      | r => String c r
      end
  end.

(** [s.strip()] *)
Definition strip (s : string) : string := rstrip (lstrip s).

(** [s.split(sep)] for a separator of one character: never the empty
    list, [''.split(',')] being [['']]. *)
Fixpoint split (sep : ascii) (s : string) : list string :=
  match s with
  | EmptyString => [EmptyString]
  | String c s' =>
      if Ascii.eqb c sep then EmptyString :: split sep s'
      else match split sep s' with
           | p :: ps => String c p :: ps
           | [] => [String c EmptyString]
           end
  end.

(** [s.count(c)] for a pattern of one character. *)
Fixpoint count (c : ascii) (s : string) : nat :=
  match s with
  | EmptyString => 0
  | String d s' => (if Ascii.eqb d c then 1 else 0) + count c s'
  end.

(** [len(s)] *)
Definition len (s : string) : nat := String.length s.

(** Truth value of a [str]: non-empty. *)
Definition truthy (s : string) : bool :=
  match s with EmptyString => false | String _ _ => true end.

(** [s * n] *)
Fixpoint repeat (s : string) (n : nat) : string :=
  match n with
  | O => EmptyString
  | S n' => s ++ repeat s n'
  end.

(** [str(n)] for a non-negative [int]. *)
Definition of_nat (n : nat) : string := NilEmpty.string_of_uint (Nat.to_uint n).


End Str.

(** ** Printed text and the standard output *)

(** A line of text as its code points. *)
Definition text := list N.

Definition codepoints (s : string) : text :=
  map N_of_ascii (list_ascii_of_string s).

(** The standard output: the lines printed so far, oldest first. *)
Definition stdout := list text.

(** A computation that may print. *)
Definition IO (A : Type) : Type := stdout -> A * stdout.

#[export] Instance IO_ret : MRet IO := fun A a out => (a, out).

#[export] Instance IO_bind : MBind IO :=
  fun A B k m out => let (a, out') := m out in k a out'.

(** [print(t)] *)
Definition print (t : text) : IO unit := fun out => (tt, out ++ [t]).

(** ** The data model *)

(** [@dataclass class KnowledgeBase] *)
Record KnowledgeBase := mkKnowledgeBase {
  id : string;
  name : string;
  icon_url : string;
  brand_color : string;
  org_url : string
}.

Definition KNOWLEDGE_BASES : list KnowledgeBase :=
  [ mkKnowledgeBase "8be6dfd9-ecaf-4e2b-8414-01aecb67e147" "Blossom Analysis"
      "images/logos/blossom_analysis.jpg" "#FFFFFF" "https://blossomanalysis.com";
    mkKnowledgeBase "f73bbef9-ea3b-4f78-956d-b5fc38de7699" "Lucid News"
      "images/logos/lucid_news.jpg" "#2712BD" "https://lucidnews.com";
    mkKnowledgeBase "f88d9d45-f25e-4051-8a84-a8d7873622b8" "MAPS"
      "images/logos/maps.jpg" "#2712BD" "https://maps.org";
    mkKnowledgeBase "5f6e1ea5-1f3f-431a-8759-b66810582b73" "Psychedelic Alpha"
      "images/logos/psychedelic_alpha.jpg" "#CFC9E5" "https://psychedelicalpha.com";
    mkKnowledgeBase "c34bc3da-d466-4a2d-94c3-2e6fffbe6d1d" "Psychedelics Today"
      "images/logos/psychedelics_today.jpg" "#FFFFFF" "https://psychedelictoday.com" ].

(** [{key(kb): kb for kb in kbs}]: entries are inserted from left to right,
    a later entry replacing an earlier one with the same key. *)
Definition dict_comprehension (key : KnowledgeBase -> string)
    (kbs : list KnowledgeBase) : gmap string KnowledgeBase :=
  fold_left (fun d kb => <[key kb := kb]> d) kbs ∅.

Definition KNOWLEDGE_BASES_BY_ID : gmap string KnowledgeBase :=
  dict_comprehension id KNOWLEDGE_BASES.

Definition KNOWLEDGE_BASES_BY_NAME : gmap string KnowledgeBase :=
  dict_comprehension (fun kb => Str.lower (name kb)) KNOWLEDGE_BASES.

(** ** The operations *)

Definition get_knowledge_base_by_id (kb_id : string) : option KnowledgeBase :=
  KNOWLEDGE_BASES_BY_ID !! kb_id.

Definition get_knowledge_base_by_name (nm : string) : option KnowledgeBase :=
  KNOWLEDGE_BASES_BY_NAME !! Str.lower nm.

(** [len(item) == 36 and item.count('-') == 4] *)
Definition is_id_shaped (item : string) : bool :=
  Nat.eqb (Str.len item) 36 && Nat.eqb (Str.count "-" item) 4.

(** The line printed for a name that is not in the catalog: U+26A0, U+FE0F,
    two spaces, then the message with the item between single quotes. *)
Definition warning (item : string) : text :=
  [9888%N; 65039%N] ++ codepoints "  Warning: Knowledge base '"
    ++ codepoints item ++ codepoints "' not found".

(** [[item.strip() for item in selection.split(",") if item.strip()]] *)
Definition selection_items (selection : string) : list string :=
  map Str.strip (List.filter (fun item => Str.truthy (Str.strip item))
                             (Str.split "," selection)).

(** The [for item in items] loop; [ids] is the list being appended to. *)
Fixpoint resolve_items (items : list string) (ids : list string)
    : IO (list string) :=
  match items with
  | [] => mret ids
  | item :: rest =>
      if is_id_shaped item then resolve_items rest (ids ++ [item])
      else
        match get_knowledge_base_by_name item with
        | Some kb => resolve_items rest (ids ++ [id kb])
        | None => print (warning item) ;; resolve_items rest ids
        end
  end.

(** [parse_knowledge_base_selection(selection)]; [None] is an absent
    selection, which [not selection] treats as the empty string. *)
Definition parse_knowledge_base_selection (selection : option string)
    : IO (list string) :=
  match selection with
  | None => mret []
  | Some s =>
      if negb (Str.truthy s) then mret []
      else if String.eqb (Str.lower s) "all" then mret (map id KNOWLEDGE_BASES)
      else resolve_items (selection_items s) []
  end.

(** [enumerate(l, start)] *)
Fixpoint enumerate {A} (l : list A) (start : nat) : list (nat * A) :=
  match l with
  | [] => []
  | x :: l' => (start, x) :: enumerate l' (S start)
  end.

(** The double quote character, U+0022, escaped in the literals of the
    source. *)
Definition dquote : text := [34%N].

(** The body of [for i, kb in enumerate(KNOWLEDGE_BASES, 1)]. *)
Fixpoint print_entries (entries : list (nat * KnowledgeBase)) : IO unit :=
  match entries with
  | [] => mret tt
  | (i, kb) :: rest =>
      print (codepoints (Str.of_nat i ++ ". " ++ name kb)) ;;
      print (codepoints ("   ID: " ++ id kb)) ;;
      print (codepoints ("   URL: " ++ org_url kb)) ;;
      print [] ;;
      print_entries rest
  end.

(** [print_available_knowledge_bases()]; the two headings start with
    U+1F4DA and U+1F4A1.  It returns [None]. *)
Definition print_available_knowledge_bases : IO unit :=
  print ([128218%N] ++ codepoints " Available Knowledge Bases:") ;;
  print (codepoints (Str.repeat "-" 50)) ;;
  print_entries (enumerate KNOWLEDGE_BASES 1) ;;
  print ([128161%N] ++ codepoints " Usage examples:") ;;
  print (codepoints "  By name: -k " ++ dquote
           ++ codepoints "Blossom Analysis,MAPS" ++ dquote) ;;
  print (codepoints "  By ID: -k " ++ dquote
           ++ codepoints "8be6dfd9-ecaf-4e2b-8414-01aecb67e147" ++ dquote) ;;
  print (codepoints "  All: -k " ++ dquote ++ codepoints "all" ++ dquote).

(** ** Objects and aliasing

    Lists and dataclass instances are mutable objects reached through
    references.  The heap below holds the record objects and the list
    objects; a list object holds references to records, so two lists can
    share their records. *)

Module Store.

(** A reference is the position of the object in the heap. *)
Abbreviation ref := nat (only parsing).

(** The attributes of a [KnowledgeBase]; the dataclass is not frozen, so
    each can be assigned. *)
Inductive field := f_id | f_name | f_icon_url | f_brand_color | f_org_url.

(** [setattr(kb, f, v)] on the value of the object. *)
Definition setattr (f : field) (v : string) (kb : KnowledgeBase)
    : KnowledgeBase :=
  match f with
  | f_id => mkKnowledgeBase v (name kb) (icon_url kb) (brand_color kb) (org_url kb)
  | f_name => mkKnowledgeBase (id kb) v (icon_url kb) (brand_color kb) (org_url kb)
  | f_icon_url => mkKnowledgeBase (id kb) (name kb) v (brand_color kb) (org_url kb)
  | f_brand_color => mkKnowledgeBase (id kb) (name kb) (icon_url kb) v (org_url kb)
  | f_org_url => mkKnowledgeBase (id kb) (name kb) (icon_url kb) (brand_color kb) v
  end.

(** Record objects and list objects, each addressed by its position. *)
Record heap := mkHeap {
  records : list KnowledgeBase;
  lists : list (list ref)
}.

(** The list object bound to the global [KNOWLEDGE_BASES]. *)
Definition KNOWLEDGE_BASES_ref : ref := 0.

(** The heap once the module is imported: one object per catalog entry,
    in definition order, and the global list holding them. *)
Definition loaded : heap :=
  mkHeap KNOWLEDGE_BASES [seq 0 (length KNOWLEDGE_BASES)].

(** The records seen through the list object [l]. *)
Definition read_list (h : heap) (l : ref) : option (list KnowledgeBase) :=
  refs ← lists h !! l; mapM (fun r => records h !! r) refs.

(** The process-wide catalog as the module's functions see it. *)
Definition catalog (h : heap) : option (list KnowledgeBase) :=
  read_list h KNOWLEDGE_BASES_ref.

(** [return KNOWLEDGE_BASES.copy()]: a new list object with the same
    elements, that is, the same references. *)
Definition list_available_knowledge_bases (h : heap) : option (ref * heap) :=
  refs ← lists h !! KNOWLEDGE_BASES_ref;
  Some (length (lists h), mkHeap (records h) (lists h ++ [refs])).

(** What a caller can do through a list [l] it holds. *)
Inductive mutation :=
| SetItem (i : nat) (r : ref)               (* l[i] = r *)
| Append (r : ref)                          (* l.append(r) *)
| DelItem (i : nat)                         (* del l[i] *)
| Clear                                     (* l.clear() *)
| Reverse                                   (* l.reverse() *)
| SetAttr (i : nat) (f : field) (v : string). (* setattr(l[i], f, v) *)

(** Mutations of the list object itself, as opposed to its elements. *)
Definition list_level (m : mutation) : bool :=
  match m with SetAttr _ _ _ => false | _ => true end.

Definition set_list (h : heap) (l : ref) (refs : list ref) : heap :=
  mkHeap (records h) (<[l := refs]> (lists h)).

(** One mutation through [l]; [None] when Python raises (an index out of
    range). *)
Definition mutate (l : ref) (m : mutation) (h : heap) : option heap :=
  refs ← lists h !! l;
  match m with
  | SetItem i r =>
      if (i <? length refs)%nat then Some (set_list h l (<[i := r]> refs)) else None
  | Append r => Some (set_list h l (refs ++ [r]))
  | DelItem i =>
      if (i <? length refs)%nat then Some (set_list h l (delete i refs)) else None
  | Clear => Some (set_list h l [])
  | Reverse => Some (set_list h l (rev refs))
  | SetAttr i f v =>
      r ← refs !! i;
      kb ← records h !! r;
      Some (mkHeap (<[r := setattr f v kb]> (records h)) (lists h))
  end.

Fixpoint mutate_all (l : ref) (ms : list mutation) (h : heap) : option heap :=
  match ms with
  | [] => Some h
  | m :: ms' => h' ← mutate l m h; mutate_all l ms' h'
  end.

(** The claim that the copy is defensive, as the specification words it:
    whatever a caller does through the returned list, the catalog reads
    as before. *)
Definition defensive_copy : Prop :=
  forall l h1 ms h2,
    list_available_knowledge_bases loaded = Some (l, h1) ->
    mutate_all l ms h1 = Some h2 ->
    catalog h2 = catalog loaded.

End Store.

(** ** The specification's wording, for comparison with the code *)

(** Split on commas, trim each piece, discard the pieces that are empty. *)
Definition pieces_spec (selection : string) : list string :=
  List.filter Str.truthy (map Str.strip (Str.split "," selection)).

(** What one piece contributes to the result. *)
Definition resolve_piece_spec (piece : string) : list string :=
  if is_id_shaped piece then [piece]
  else match get_knowledge_base_by_name piece with
       | Some kb => [id kb]
       | None => []
       end.

(** What one piece makes the selector print. *)
Definition warn_piece_spec (piece : string) : list text :=
  if is_id_shaped piece then []
  else match get_knowledge_base_by_name piece with
       | Some _ => []
       | None => [warning piece]
       end.

(** The block of one catalog entry in the listing. *)
Definition entry_block_spec (position : nat) (kb : KnowledgeBase) : list text :=
  [ codepoints (Str.of_nat position ++ ". " ++ name kb);
    codepoints ("   ID: " ++ id kb);
    codepoints ("   URL: " ++ org_url kb);
    [] ].

Definition listing_heading : list text :=
  [ [128218%N] ++ codepoints " Available Knowledge Bases:";
    codepoints (Str.repeat "-" 50) ].

Definition usage_examples : list text :=
  [ [128161%N] ++ codepoints " Usage examples:";
    codepoints "  By name: -k " ++ dquote
      ++ codepoints "Blossom Analysis,MAPS" ++ dquote;
    codepoints "  By ID: -k " ++ dquote
      ++ codepoints "8be6dfd9-ecaf-4e2b-8414-01aecb67e147" ++ dquote;
    codepoints "  All: -k " ++ dquote ++ codepoints "all" ++ dquote ].

(** The strings that compare equal to [all] without regard to case. *)
Definition all_spellings : list string :=
  ["all"; "alL"; "aLl"; "aLL"; "All"; "AlL"; "ALl"; "ALL"].

(** The claim that the listing is pure formatting: a call leaves the
    standard output as it was. *)
Definition listing_prints_nothing : Prop :=
  forall out, snd (print_available_knowledge_bases out) = out.

(** ** The other functions of the module and their callers *)


(** The [for name in names] loop of [get_knowledge_base_ids_by_names];
    [ids] is the list being appended to. *)
Fixpoint ids_by_names_loop (names : list string) (ids : list string)
    : list string :=
  match names with
  | [] => ids
  | nm :: rest =>
      match get_knowledge_base_by_name nm with
      | Some kb => ids_by_names_loop rest (ids ++ [id kb])
      | None => ids_by_names_loop rest ids
      end
  end.

Definition get_knowledge_base_ids_by_names (names : list string) : list string :=
  ids_by_names_loop names [].

(** [structure.py], the script that uses the selector.  The objects of the
    agent framework are represented by the arguments the script gives to
    their constructors. *)
Module Structure.

(** [RagTool(description=..., rag_engine=RagEngine(...))], the engine being
    built around [GriptapeCloudVectorStoreDriver(api_key=...,
    knowledge_base_id=...)]. *)
Record RagTool := mkRagTool {
  description : string;
  api_key : string;
  knowledge_base_id : string
}.

(** The line printed when the environment has no API key; it starts with
    U+26A0, U+FE0F. *)
Definition missing_key_warning : text :=
  [9888%N; 65039%N]
    ++ codepoints "  Warning: GT_CLOUD_API_KEY not found. Knowledge base queries will fail.".

(** The [for i, kb_id in enumerate(knowledge_base_ids)] loop; [tools] is
    the list being appended to. *)
Fixpoint tools_loop (key : string) (entries : list (nat * string))
    (tools : list RagTool) : list RagTool :=
  match entries with
  | [] => tools
  | (i, kb_id) :: rest =>
      if Str.truthy kb_id then
        let kb_info := get_knowledge_base_by_id kb_id in
        let kb_name :=
          match kb_info with
          | Some kb => name kb
          | None => ("Knowledge base #" ++ Str.of_nat (i + 1))%string
          end in
        let kb_description :=
          (kb_name ++ ": Contains specialized information and documents")%string in
        let kb_description :=
          match kb_info with
          | Some kb => (kb_description ++ " from " ++ org_url kb)%string
          | None => kb_description
          end in
        tools_loop key rest (tools ++ [mkRagTool kb_description key kb_id])
      else tools_loop key rest tools
  end.

(** [get_knowledge_base_tools(knowledge_base_ids)]; [environ_key] is the
    value of [os.environ.get("GT_CLOUD_API_KEY")]. *)
Definition get_knowledge_base_tools (environ_key : option string)
    (knowledge_base_ids : list string) : IO (list RagTool) :=
  match environ_key with
  | None => print missing_key_warning ;; mret []
  | Some key =>
      if negb (Str.truthy key) then print missing_key_warning ;; mret []
      else mret (tools_loop key (enumerate knowledge_base_ids 0) [])
  end.

(** [parse_knowledge_base_ids(kb_ids_str)] *)
Definition parse_knowledge_base_ids (kb_ids_str : option string)
    : IO (list string) :=
  parse_knowledge_base_selection kb_ids_str.

End Structure.

(** ** A standard output with an encoding

    A text stream encodes a line before it writes it and raises
    [UnicodeEncodeError] at a code point its encoding does not cover;
    nothing of that line is then written and the exception leaves the
    function, which has no handler.  [Encoded] is the selector on such a
    stream; [enc] tells which code points the encoding covers. *)

Module Encoded.

Inductive exn := UnicodeEncodeError (cp : N).

(** How a call ends, with the standard output as it then is. *)
Inductive outcome (A : Type) :=
| Returned (a : A) (out : stdout)
| Raised (e : exn) (out : stdout).

Arguments Returned {A} a out.
Arguments Raised {A} e out.

Definition IO (A : Type) : Type := stdout -> outcome A.

#[export] Instance IO_ret : MRet IO := fun A a out => Returned a out.

#[export] Instance IO_bind : MBind IO :=
  fun A B k m out =>
    match m out with
    | Returned a out' => k a out'
    | Raised e out' => Raised e out'
    end.

(** [print(t)]: the first code point outside the encoding is the one the
    exception reports. *)
Definition print (enc : N -> bool) (t : text) : IO unit :=
  fun out =>
    match List.find (fun cp => negb (enc cp)) t with
    | Some cp => Raised (UnicodeEncodeError cp) out
    | None => Returned tt (out ++ [t])
    end.

(** The [for item in items] loop. *)
Fixpoint resolve_items (enc : N -> bool) (items : list string)
    (ids : list string) : IO (list string) :=
  match items with
  | [] => mret ids
  | item :: rest =>
      if is_id_shaped item then resolve_items enc rest (ids ++ [item])
      else
        match get_knowledge_base_by_name item with
        | Some kb => resolve_items enc rest (ids ++ [id kb])
        | None => print enc (warning item) ;; resolve_items enc rest ids
        end
  end.

(** [parse_knowledge_base_selection(selection)] *)
Definition parse_knowledge_base_selection (enc : N -> bool)
    (selection : option string) : IO (list string) :=
  match selection with
  | None => mret []
  | Some s =>
      if negb (Str.truthy s) then mret []
      else if String.eqb (Str.lower s) "all" then mret (map id KNOWLEDGE_BASES)
      else resolve_items enc (selection_items s) []
  end.

(** An ASCII stream and a UTF-8 stream; UTF-8 covers every code point
    but the surrogates U+D800..U+DFFF. *)
Definition ascii_stream (cp : N) : bool := (cp <? 128)%N.

Definition utf8_stream (cp : N) : bool :=
  ((cp <? 55296) || (57343 <? cp) && (cp <? 1114112))%N.

(** The encoding covers every warning line: the warning sign U+26A0,
    U+FE0F and the code points below 256 that strings are made of. *)
Definition covers_warnings (enc : N -> bool) : Prop :=
  enc 9888%N = true /\ enc 65039%N = true /\
  forall cp, (cp < 256)%N -> enc cp = true.

(** The claim that the selector raises for no input, on whatever standard
    output. *)
Definition never_raises : Prop :=
  forall enc selection out, exists ids out',
    parse_knowledge_base_selection enc selection out = Returned ids out'.

End Encoded.

(** A piece that gives an id: it has the shape of an id, or its lowered
    form is the lowered name of a catalog entry. *)
Definition resolvable (item : string) : Prop :=
  is_id_shaped item = true
  \/ Str.lower item ∈ map (fun kb => Str.lower (name kb)) KNOWLEDGE_BASES.

#[export] Instance resolvable_dec item : Decision (resolvable item) :=
  or_dec _ _.

(** * Proofs *)

(** ** Strings *)

Section StrFacts.

Lemma lower_length s : String.length (Str.lower s) = String.length s.
Proof. induction s as [|c s IH]; simpl; congruence. Qed.

Lemma lower_nonempty s : Str.lower s = "all" -> Str.truthy s = true.
Proof. destruct s; [discriminate | reflexivity]. Qed.

(** Only [a] and [A] lower to [a], only [l] and [L] to [l]. *)
Lemma lower_char_a c : Str.lower_char c = "a"%char -> c = "a"%char \/ c = "A"%char.
Proof.
  destruct c as [[] [] [] [] [] [] [] []]; vm_compute; intros H;
    first [discriminate H | left; reflexivity | right; reflexivity].
Qed.

Lemma lower_char_l c : Str.lower_char c = "l"%char -> c = "l"%char \/ c = "L"%char.
Proof.
  destruct c as [[] [] [] [] [] [] [] []]; vm_compute; intros H;
    first [discriminate H | left; reflexivity | right; reflexivity].
Qed.

Lemma lower_all_spellings s : Str.lower s = "all" -> In s all_spellings.
Proof.
  destruct s as [|c1 [|c2 [|c3 [|c4 s]]]]; simpl; try discriminate.
  intros H. injection H as H1 H2 H3.
  destruct (lower_char_a _ H1) as [-> | ->],
           (lower_char_l _ H2) as [-> | ->],
           (lower_char_l _ H3) as [-> | ->]; simpl; tauto.
Qed.

Lemma strip_filter_commute l :
  map Str.strip (List.filter (fun item => Str.truthy (Str.strip item)) l)
  = List.filter Str.truthy (map Str.strip l).
Proof.
  induction l as [|x l IH]; simpl; [reflexivity|].
  destruct (Str.truthy (Str.strip x)); simpl; congruence.
Qed.

End StrFacts.

(** The list comprehension of the code yields the pieces the specification
    describes. *)
Lemma selection_items_spec s : selection_items s = pieces_spec s.
Proof. apply strip_filter_commute. Qed.

(** ** The resolution loop *)

(** The loop appends to [ids] and to the output what each item
    contributes, item by item. *)
Lemma resolve_items_run items : forall ids out,
  resolve_items items ids out =
  (ids ++ flat_map resolve_piece_spec items,
   out ++ flat_map warn_piece_spec items).
Proof.
  induction items as [|item rest IH]; intros ids out; simpl.
  - by rewrite !app_nil_r.
  - unfold resolve_piece_spec, warn_piece_spec.
    destruct (is_id_shaped item); [|destruct (get_knowledge_base_by_name item)].
    + rewrite IH. by rewrite <- app_assoc.
    + rewrite IH. by rewrite <- app_assoc.
    + unfold mbind, IO_bind, print. rewrite IH. by rewrite <- app_assoc.
Qed.

Lemma resolve_items_app pre post ids out :
  resolve_items (pre ++ post) ids out =
  let (ids1, out1) := resolve_items pre ids out in resolve_items post ids1 out1.
Proof.
  rewrite (resolve_items_run (pre ++ post)), (resolve_items_run pre).
  rewrite resolve_items_run, !flat_map_app. by rewrite !app_assoc.
Qed.

(** Past the two early returns the result is the loop over the items. *)
Lemma parse_items s out :
  Str.lower s <> "all" ->
  parse_knowledge_base_selection (Some s) out
  = resolve_items (selection_items s) [] out.
Proof.
  intros Hall. unfold parse_knowledge_base_selection.
  destruct s as [|c s]; [reflexivity|]. simpl negb. cbv iota.
  destruct (String.eqb_spec (Str.lower (String c s)) "all"); [contradiction|].
  reflexivity.
Qed.

(** A selection spelling [all] has one item, itself, which is a name. *)
Lemma all_items s :
  Str.lower s = "all" -> selection_items s = [s] /\ is_id_shaped s = false.
Proof.
  intros H. apply lower_all_spellings in H. simpl in H.
  repeat (destruct H as [<- | H]; [split; vm_compute; reflexivity|]).
  contradiction.
Qed.

(** ** Dict comprehensions and the two indices *)

Section DictComprehension.

Variable key : KnowledgeBase -> string.

Lemma dict_fold_lookup kbs : forall (d : gmap string KnowledgeBase) k kb,
  NoDup (map key kbs) ->
  fold_left (fun d kb => <[key kb := kb]> d) kbs d !! k = Some kb
  <-> (kb ∈ kbs /\ key kb = k) \/ ((k ∉ map key kbs) /\ d !! k = Some kb).
Proof.
  induction kbs as [|a l IH]; intros d k kb Hnd; simpl.
  - split; [intros H; right; split; [set_solver | done] | ].
    intros [[H _] | [_ H]]; [set_solver | done].
  - simpl in Hnd. apply NoDup_cons in Hnd as [Ha Hnd].
    rewrite (IH _ _ _ Hnd). destruct (decide (key a = k)) as [<- | Hne].
    + rewrite lookup_insert_eq. split.
      * intros [[Hin Hk] | [_ Heq]].
        -- left. split; [by apply elem_of_cons; right | done].
        -- injection Heq as <-. left. split; [by apply elem_of_cons; left | done].
      * intros [[Hin Hk] | [Hnin _]].
        -- apply elem_of_cons in Hin as [-> | Hin].
           ++ right. by split.
           ++ left. by split.
        -- exfalso. apply Hnin. apply elem_of_cons. by left.
    + rewrite lookup_insert_ne by done. split.
      * intros [[Hin Hk] | [Hnin Hd]].
        -- left. split; [by apply elem_of_cons; right | done].
        -- right. split; [|done]. intros Hin.
           apply elem_of_cons in Hin as [-> | Hin]; [by apply Hne | by apply Hnin].
      * intros [[Hin Hk] | [Hnin Hd]].
        -- apply elem_of_cons in Hin as [-> | Hin]; [by destruct Hne | left; by split].
        -- right. split; [|done]. intros Hin. apply Hnin. apply elem_of_cons. by right.
Qed.

(** With distinct keys the index holds exactly the entries of the list. *)
Lemma dict_comprehension_lookup kbs k kb :
  NoDup (map key kbs) ->
  dict_comprehension key kbs !! k = Some kb <-> kb ∈ kbs /\ key kb = k.
Proof.
  intros Hnd. unfold dict_comprehension. rewrite dict_fold_lookup by done.
  rewrite lookup_empty. split; [intros [H | [_ H]]; [exact H | discriminate H] | by left].
Qed.

Lemma dict_comprehension_absent kbs k :
  NoDup (map key kbs) ->
  dict_comprehension key kbs !! k = None <-> k ∉ map key kbs.
Proof.
  intros Hnd. rewrite eq_None_not_Some. unfold is_Some. split.
  - intros Hno Hin. apply list_elem_of_fmap in Hin as [kb [-> Hin]].
    apply Hno. exists kb. by apply dict_comprehension_lookup.
  - intros Hnin [kb Hkb]. apply dict_comprehension_lookup in Hkb as [Hin <-]; [|done].
    apply Hnin. apply list_elem_of_fmap. by exists kb.
Qed.

End DictComprehension.

Lemma ids_unique : NoDup (map id KNOWLEDGE_BASES).
Proof. compute_done. Qed.

Lemma lowered_names_unique :
  NoDup (map (fun kb => Str.lower (name kb)) KNOWLEDGE_BASES).
Proof. compute_done. Qed.

Lemma by_id_lookup k kb :
  get_knowledge_base_by_id k = Some kb <-> kb ∈ KNOWLEDGE_BASES /\ id kb = k.
Proof. apply dict_comprehension_lookup, ids_unique. Qed.

Lemma by_name_lookup nm kb :
  get_knowledge_base_by_name nm = Some kb
  <-> kb ∈ KNOWLEDGE_BASES /\ Str.lower (name kb) = Str.lower nm.
Proof.
  apply (dict_comprehension_lookup (fun kb => Str.lower (name kb))).
  apply lowered_names_unique.
Qed.

(** Every id of the catalog has the shape of an id. *)
Lemma catalog_ids_shaped :
  Forall (fun kb => is_id_shaped (id kb) = true) KNOWLEDGE_BASES.
Proof. repeat constructor. Qed.

(** ** The selector *)

(** C5. An empty selection string and an absent selection both give the
    empty list; nothing is printed and no error arises. *)
Theorem parse_empty_or_absent out :
  parse_knowledge_base_selection None out = ([], out) /\
  parse_knowledge_base_selection (Some "") out = ([], out).
Proof. split; reflexivity. Qed.

(** C1. A selection that equals [all] without regard to case gives the id
    of every catalog entry in catalog order, as many as the catalog has
    entries; the standard output is left as it was. *)
Theorem parse_all s out :
  Str.lower s = "all" ->
  parse_knowledge_base_selection (Some s) out = (map id KNOWLEDGE_BASES, out) /\
  length (fst (parse_knowledge_base_selection (Some s) out))
  = length KNOWLEDGE_BASES.
Proof.
  intros H.
  assert (parse_knowledge_base_selection (Some s) out
          = (map id KNOWLEDGE_BASES, out)) as ->.
  { unfold parse_knowledge_base_selection.
    rewrite (lower_nonempty _ H), H. reflexivity. }
  split; [reflexivity | apply length_map].
Qed.

Lemma parse_all_witness :
  Str.lower "ALL" = "all" /\
  parse_knowledge_base_selection (Some "ALL") []
  = (map id KNOWLEDGE_BASES, []) /\
  length (fst (parse_knowledge_base_selection (Some "ALL") []))
  = length KNOWLEDGE_BASES.
Proof. split; [reflexivity | apply (parse_all "ALL" []); reflexivity]. Defined.

Example parse_all_lowercase :
  fst (parse_knowledge_base_selection (Some "all") []) =
  [ "8be6dfd9-ecaf-4e2b-8414-01aecb67e147";
    "f73bbef9-ea3b-4f78-956d-b5fc38de7699";
    "f88d9d45-f25e-4051-8a84-a8d7873622b8";
    "5f6e1ea5-1f3f-431a-8759-b66810582b73";
    "c34bc3da-d466-4a2d-94c3-2e6fffbe6d1d" ].
Proof. reflexivity. Qed.

(** C2. A selection that is neither empty nor a spelling of [all] is split
    on commas, each piece trimmed, the empty pieces discarded; the pieces
    that remain are resolved one by one, and the result is the
    concatenation of what each gives, in the order of the pieces, repeats
    included. *)
Theorem parse_pieces_in_order s out :
  s <> "" ->
  Str.lower s <> "all" ->
  fst (parse_knowledge_base_selection (Some s) out)
  = flat_map resolve_piece_spec (pieces_spec s).
Proof.
  intros _ Hall. rewrite parse_items by exact Hall.
  rewrite resolve_items_run, selection_items_spec. reflexivity.
Qed.

Lemma parse_pieces_in_order_witness :
  fst (parse_knowledge_base_selection
         (Some "Blossom Analysis,Blossom Analysis") [])
  = flat_map resolve_piece_spec (pieces_spec "Blossom Analysis,Blossom Analysis").
Proof.
  apply (parse_pieces_in_order "Blossom Analysis,Blossom Analysis" []);
    discriminate.
Defined.

Example parse_duplicates_kept :
  fst (parse_knowledge_base_selection
         (Some "Blossom Analysis,Blossom Analysis") [])
  = [ "8be6dfd9-ecaf-4e2b-8414-01aecb67e147";
      "8be6dfd9-ecaf-4e2b-8414-01aecb67e147" ].
Proof. vm_compute. reflexivity. Qed.

Example parse_two_names :
  parse_knowledge_base_selection (Some "maps, blossom analysis") [] =
  (["f88d9d45-f25e-4051-8a84-a8d7873622b8";
    "8be6dfd9-ecaf-4e2b-8414-01aecb67e147"], []).
Proof. vm_compute. reflexivity. Qed.

Lemma is_id_shaped_spec item :
  is_id_shaped item = true <-> Str.len item = 36 /\ Str.count "-" item = 4.
Proof.
  unfold is_id_shaped. rewrite andb_true_iff, !Nat.eqb_eq. reflexivity.
Qed.

Lemma piece_id_shaped item :
  is_id_shaped item = true ->
  resolve_piece_spec item = [item] /\ warn_piece_spec item = [].
Proof. intros H. unfold resolve_piece_spec, warn_piece_spec. by rewrite H. Qed.

Lemma piece_found item kb :
  is_id_shaped item = false ->
  KNOWLEDGE_BASES_BY_NAME !! Str.lower item = Some kb ->
  resolve_piece_spec item = [id kb] /\ warn_piece_spec item = [].
Proof.
  intros H Hkb.
  unfold resolve_piece_spec, warn_piece_spec, get_knowledge_base_by_name.
  by rewrite H, Hkb.
Qed.

Lemma piece_not_found item :
  is_id_shaped item = false ->
  KNOWLEDGE_BASES_BY_NAME !! Str.lower item = None ->
  resolve_piece_spec item = [] /\ warn_piece_spec item = [warning item].
Proof.
  intros H Hkb.
  unfold resolve_piece_spec, warn_piece_spec, get_knowledge_base_by_name.
  by rewrite H, Hkb.
Qed.

(** A selection spelling [all] has no item of the shape of an id. *)
Lemma all_no_id_item s pre item post :
  Str.lower s = "all" ->
  selection_items s = pre ++ item :: post ->
  is_id_shaped item = false.
Proof.
  intros Hall Hitems. destruct (all_items _ Hall) as [Hs Hshape].
  rewrite Hs in Hitems. destruct pre as [|p pre]; simpl in Hitems.
  - by injection Hitems as <- _.
  - injection Hitems as _ Hnil. by destruct pre.
Qed.

(** C3. A piece of 36 characters with 4 hyphens goes into the result as it
    is, at its place among the pieces, whether or not the catalog has such
    an id; it makes the selector print nothing. *)
Theorem id_shaped_piece_verbatim s pre item post out :
  selection_items s = pre ++ item :: post ->
  Str.len item = 36 ->
  Str.count "-" item = 4 ->
  let (ids1, out1) := resolve_items pre [] out in
  let (ids2, out2) := resolve_items post [] out1 in
  parse_knowledge_base_selection (Some s) out = (ids1 ++ item :: ids2, out2).
Proof.
  intros Hitems Hlen Hcount.
  assert (is_id_shaped item = true) as Hshape by by apply is_id_shaped_spec.
  assert (Str.lower s <> "all") as Hall.
  { intros Hall. rewrite (all_no_id_item _ _ _ _ Hall Hitems) in Hshape.
    discriminate. }
  rewrite parse_items by exact Hall. rewrite Hitems.
  destruct (piece_id_shaped _ Hshape) as [Hids Hwarn].
  rewrite (resolve_items_run (pre ++ item :: post)), !flat_map_app. simpl.
  rewrite Hids, Hwarn.
  rewrite (resolve_items_run pre). rewrite (resolve_items_run post).
  simpl. by rewrite <- !app_assoc.
Qed.

Lemma id_shaped_piece_verbatim_witness :
  get_knowledge_base_by_id "11111111-1111-1111-1111-111111111111" = None /\
  parse_knowledge_base_selection
    (Some "11111111-1111-1111-1111-111111111111") []
  = (["11111111-1111-1111-1111-111111111111"], []).
Proof.
  split; [reflexivity|].
  apply (id_shaped_piece_verbatim "11111111-1111-1111-1111-111111111111"
           [] "11111111-1111-1111-1111-111111111111" [] []); reflexivity.
Defined.

Example id_shaped_piece_between_names :
  parse_knowledge_base_selection
    (Some "MAPS, 11111111-1111-1111-1111-111111111111 ,maps") []
  = ([ "f88d9d45-f25e-4051-8a84-a8d7873622b8";
       "11111111-1111-1111-1111-111111111111";
       "f88d9d45-f25e-4051-8a84-a8d7873622b8" ], []).
Proof. vm_compute. reflexivity. Qed.

(** On the standard output that takes every line: a name-shaped piece
    gives the id of its record at its place, or no id and its warning. *)
Lemma name_piece_resolved s pre item post out :
  Str.lower s <> "all" ->
  selection_items s = pre ++ item :: post ->
  is_id_shaped item = false ->
  let (ids1, out1) := resolve_items pre [] out in
  match KNOWLEDGE_BASES_BY_NAME !! Str.lower item with
  | Some kb =>
      let (ids2, out2) := resolve_items post [] out1 in
      parse_knowledge_base_selection (Some s) out
      = (ids1 ++ id kb :: ids2, out2)
  | None =>
      let (ids2, out2) := resolve_items post [] (out1 ++ [warning item]) in
      parse_knowledge_base_selection (Some s) out = (ids1 ++ ids2, out2)
  end.
Proof.
  intros Hall Hitems Hshape.
  rewrite parse_items by exact Hall. rewrite Hitems.
  rewrite (resolve_items_run (pre ++ item :: post)), !flat_map_app. simpl.
  rewrite (resolve_items_run pre).
  destruct (KNOWLEDGE_BASES_BY_NAME !! Str.lower item) as [kb|] eqn:Hkb.
  - destruct (piece_found _ _ Hshape Hkb) as [-> ->].
    rewrite (resolve_items_run post). simpl. by rewrite <- !app_assoc.
  - destruct (piece_not_found _ Hshape Hkb) as [-> ->].
    rewrite (resolve_items_run post). simpl. by rewrite <- !app_assoc.
Qed.

Example unknown_name_in_the_middle :
  parse_knowledge_base_selection
    (Some "Blossom Analysis,Nonexistent Org,MAPS") []
  = ([ "8be6dfd9-ecaf-4e2b-8414-01aecb67e147";
       "f88d9d45-f25e-4051-8a84-a8d7873622b8" ],
     [ warning "Nonexistent Org" ]).
Proof. vm_compute. reflexivity. Qed.

(** The selector on a standard output with an encoding. *)

Lemma codepoints_below_256 s :
  Forall (fun cp => (cp < 256)%N) (codepoints s).
Proof.
  unfold codepoints. induction s as [|c s IH]; simpl; constructor;
    [apply N_ascii_bounded | exact IH].
Qed.

Lemma warning_covered enc item :
  Encoded.covers_warnings enc ->
  Forall (fun cp => enc cp = true) (warning item).
Proof.
  intros (Hsign & Hsel & Hlow). unfold warning.
  assert (forall s, Forall (fun cp => enc cp = true) (codepoints s)) as Hs.
  { intros s. eapply Forall_impl; [apply codepoints_below_256 | exact Hlow]. }
  repeat (apply Forall_app; split); try apply Hs.
  by repeat constructor.
Qed.

(** A line the encoding covers is written; a line it does not cover
    raises and is not written. *)
Lemma print_covered enc t out :
  Forall (fun cp => enc cp = true) t ->
  Encoded.print enc t out = Encoded.Returned tt (out ++ [t]).
Proof.
  intros Ht. unfold Encoded.print.
  assert (List.find (fun cp => negb (enc cp)) t = None) as ->; [|reflexivity].
  induction Ht as [|cp t Hcp _ IH]; simpl; [reflexivity|]. by rewrite Hcp.
Qed.

Lemma print_not_covered enc t out cp :
  List.find (fun cp => negb (enc cp)) t = Some cp ->
  Encoded.print enc t out = Encoded.Raised (Encoded.UnicodeEncodeError cp) out.
Proof. intros Ht. unfold Encoded.print. by rewrite Ht. Qed.

(** On an encoding that covers the warning lines the selector ends as on
    the standard output that takes every line. *)
Lemma encoded_resolve_items enc items :
  Encoded.covers_warnings enc -> forall ids out,
  Encoded.resolve_items enc items ids out
  = Encoded.Returned (fst (resolve_items items ids out))
                     (snd (resolve_items items ids out)).
Proof.
  intros Henc. induction items as [|item rest IH]; intros ids out; simpl;
    [reflexivity|].
  destruct (is_id_shaped item); [apply IH|].
  destruct (get_knowledge_base_by_name item); [apply IH|].
  unfold mbind, Encoded.IO_bind, IO_bind, print.
  rewrite print_covered by by apply warning_covered. apply IH.
Qed.

Lemma encoded_parse enc selection out :
  Encoded.covers_warnings enc ->
  Encoded.parse_knowledge_base_selection enc selection out
  = Encoded.Returned (fst (parse_knowledge_base_selection selection out))
                     (snd (parse_knowledge_base_selection selection out)).
Proof.
  intros Henc. destruct selection as [s|]; [|reflexivity].
  unfold Encoded.parse_knowledge_base_selection, parse_knowledge_base_selection.
  destruct (negb (Str.truthy s)); [reflexivity|].
  destruct (String.eqb (Str.lower s) "all"); [reflexivity|].
  by apply encoded_resolve_items.
Qed.

(** C4, as the code has it.  A piece that has not the shape of an id is
    looked up by its lowered form in the name index.  When the index has
    it, the id of the record goes into the result at the place of the
    piece.  When it has not, the piece gives no id, one warning line is
    printed for it, and the pieces after it are processed as usual.  All
    this, and that no exception is raised for any selection, absent or
    present, holds on a standard output whose encoding covers the warning
    lines; the selector has no handler for what [print] raises
    otherwise. *)
Theorem name_shaped_piece enc s pre item post out :
  Encoded.covers_warnings enc ->
  Str.lower s <> "all" ->
  selection_items s = pre ++ item :: post ->
  is_id_shaped item = false ->
  (let (ids1, out1) := resolve_items pre [] out in
   match KNOWLEDGE_BASES_BY_NAME !! Str.lower item with
   | Some kb =>
       let (ids2, out2) := resolve_items post [] out1 in
       Encoded.parse_knowledge_base_selection enc (Some s) out
       = Encoded.Returned (ids1 ++ id kb :: ids2) out2
   | None =>
       let (ids2, out2) := resolve_items post [] (out1 ++ [warning item]) in
       Encoded.parse_knowledge_base_selection enc (Some s) out
       = Encoded.Returned (ids1 ++ ids2) out2
   end) /\
  (forall selection out0, exists ids printed,
     Encoded.parse_knowledge_base_selection enc selection out0
     = Encoded.Returned ids (out0 ++ printed)).
Proof.
  intros Henc Hall Hitems Hshape. split.
  - rewrite encoded_parse by exact Henc.
    pose proof (name_piece_resolved s pre item post out Hall Hitems Hshape)
      as Hrun.
    destruct (resolve_items pre [] out) as [ids1 out1].
    destruct (KNOWLEDGE_BASES_BY_NAME !! Str.lower item) as [kb|].
    + destruct (resolve_items post [] out1) as [ids2 out2]. by rewrite Hrun.
    + destruct (resolve_items post [] (out1 ++ [warning item])) as [ids2 out2].
      by rewrite Hrun.
  - intros selection out0. rewrite encoded_parse by exact Henc.
    destruct selection as [sel|]; [|exists [], []; simpl; by rewrite app_nil_r].
    unfold parse_knowledge_base_selection.
    destruct (negb (Str.truthy sel));
      [exists [], []; simpl; by rewrite app_nil_r|].
    destruct (String.eqb (Str.lower sel) "all");
      [exists (map id KNOWLEDGE_BASES), []; simpl; by rewrite app_nil_r|].
    rewrite resolve_items_run. eauto.
Qed.

Lemma utf8_covers_warnings : Encoded.covers_warnings Encoded.utf8_stream.
Proof.
  split; [reflexivity|]. split; [reflexivity|].
  intros cp Hcp. unfold Encoded.utf8_stream.
  apply orb_true_iff. left. apply N.ltb_lt. lia.
Defined.

Lemma name_shaped_piece_witness :
  Encoded.covers_warnings Encoded.utf8_stream /\
  Encoded.parse_knowledge_base_selection Encoded.utf8_stream
    (Some "Blossom Analysis,Nonexistent Org,MAPS") []
  = Encoded.Returned
      [ "8be6dfd9-ecaf-4e2b-8414-01aecb67e147";
        "f88d9d45-f25e-4051-8a84-a8d7873622b8" ]
      [ warning "Nonexistent Org" ].
Proof.
  split; [exact utf8_covers_warnings|].
  apply (name_shaped_piece Encoded.utf8_stream
           "Blossom Analysis,Nonexistent Org,MAPS"
           ["Blossom Analysis"] "Nonexistent Org" ["MAPS"] []);
    [exact utf8_covers_warnings | discriminate | reflexivity | reflexivity].
Defined.

(** On a standard output that cannot encode the warning sign the print of
    the warning raises, and so does the selector: the ids resolved so far
    are lost and nothing is written. *)
Lemma unknown_name_raises_on_ascii : ~ Encoded.never_raises.
Proof.
  intros H.
  destruct (H Encoded.ascii_stream
              (Some "Blossom Analysis,Nonexistent Org,MAPS") [])
    as (ids & out' & Hrun).
  vm_compute in Hrun. discriminate Hrun.
Qed.

Example unknown_name_on_ascii :
  Encoded.parse_knowledge_base_selection Encoded.ascii_stream
    (Some "Blossom Analysis,Nonexistent Org,MAPS") []
  = Encoded.Raised (Encoded.UnicodeEncodeError 9888%N) [].
Proof. vm_compute. reflexivity. Qed.

Example known_names_on_ascii :
  Encoded.parse_knowledge_base_selection Encoded.ascii_stream
    (Some "Blossom Analysis,MAPS") []
  = Encoded.Returned
      [ "8be6dfd9-ecaf-4e2b-8414-01aecb67e147";
        "f88d9d45-f25e-4051-8a84-a8d7873622b8" ] [].
Proof. vm_compute. reflexivity. Qed.

(** C10. [all] expands to the catalog only as the whole selection.  In a
    selection that is not itself a spelling of [all], a piece that spells
    [all] is a name, the name index has no such name, and the piece is
    left out with a warning; the pieces around it are resolved as usual. *)
Theorem all_piece_is_a_name s pre item post out :
  Str.lower s <> "all" ->
  selection_items s = pre ++ item :: post ->
  Str.lower item = "all" ->
  is_id_shaped item = false /\
  get_knowledge_base_by_name item = None /\
  let (ids1, out1) := resolve_items pre [] out in
  let (ids2, out2) := resolve_items post [] (out1 ++ [warning item]) in
  parse_knowledge_base_selection (Some s) out = (ids1 ++ ids2, out2).
Proof.
  intros Hall Hitems Hitem.
  assert (is_id_shaped item = false) as Hshape by by apply all_items.
  assert (KNOWLEDGE_BASES_BY_NAME !! Str.lower item = None) as Hkb
    by by rewrite Hitem.
  split; [exact Hshape|]. split; [exact Hkb|].
  rewrite parse_items by exact Hall. rewrite Hitems.
  rewrite (resolve_items_run (pre ++ item :: post)), !flat_map_app. simpl.
  destruct (piece_not_found _ Hshape Hkb) as [-> ->].
  rewrite (resolve_items_run pre). rewrite (resolve_items_run post).
  simpl. by rewrite <- !app_assoc.
Qed.

Lemma all_piece_is_a_name_witness :
  is_id_shaped "all" = false /\
  get_knowledge_base_by_name "all" = None /\
  parse_knowledge_base_selection (Some "all,MAPS") []
  = (["f88d9d45-f25e-4051-8a84-a8d7873622b8"], [warning "all"]).
Proof.
  apply (all_piece_is_a_name "all,MAPS" [] "all" ["MAPS"] []);
    [discriminate | reflexivity | reflexivity].
Defined.

Example all_between_spaces :
  parse_knowledge_base_selection (Some " all ") [] = ([], [warning "all"]).
Proof. vm_compute. reflexivity. Qed.

Example all_uppercase_in_list :
  parse_knowledge_base_selection (Some "MAPS, ALL") []
  = (["f88d9d45-f25e-4051-8a84-a8d7873622b8"], [warning "ALL"]).
Proof. vm_compute. reflexivity. Qed.

(** C7. Whatever the selection, every element of the result has 36
    characters, 4 of them hyphens: a piece of that shape is taken as it
    is, and any other element is the id of a catalog entry, all of which
    have that shape. *)
Theorem parse_result_id_shaped selection out :
  Forall (fun i => Str.len i = 36 /\ Str.count "-" i = 4)
         (fst (parse_knowledge_base_selection selection out)).
Proof.
  eapply Forall_impl; [|intros i Hi; apply is_id_shaped_spec, Hi].
  destruct selection as [s|]; [|constructor].
  unfold parse_knowledge_base_selection.
  destruct (negb (Str.truthy s)); [constructor|].
  destruct (String.eqb (Str.lower s) "all").
  - change (Forall (fun i => is_id_shaped i = true) (id <$> KNOWLEDGE_BASES)).
    apply Forall_fmap. exact catalog_ids_shaped.
  - rewrite resolve_items_run. simpl fst.
    apply Forall_flat_map, Forall_forall. intros item _.
    unfold resolve_piece_spec.
    destruct (is_id_shaped item) eqn:Hshape; [by repeat constructor|].
    destruct (get_knowledge_base_by_name item) as [kb|] eqn:Hkb; [|constructor].
    apply by_name_lookup in Hkb as [Hin _].
    repeat constructor.
    by apply (proj1 (Forall_forall _ _) catalog_ids_shaped).
Qed.

(** ** The catalog and its indices *)

(** C6. In the catalog the ids are pairwise distinct and so are the
    lowered names; the id index holds exactly the records of the catalog
    under their ids and the name index exactly the records under their
    lowered names.  Hence a lookup by id finds the one record with that id
    or, for an id the catalog has not, nothing; a lookup by name finds the
    one record whose name equals the given one without regard to case or,
    for a name the catalog has not, nothing. *)
Theorem catalog_indices_agree :
  NoDup (map id KNOWLEDGE_BASES) /\
  NoDup (map (fun kb => Str.lower (name kb)) KNOWLEDGE_BASES) /\
  (forall k kb, KNOWLEDGE_BASES_BY_ID !! k = Some kb
                <-> kb ∈ KNOWLEDGE_BASES /\ id kb = k) /\
  (forall k kb, KNOWLEDGE_BASES_BY_NAME !! k = Some kb
                <-> kb ∈ KNOWLEDGE_BASES /\ Str.lower (name kb) = k) /\
  (forall kb, kb ∈ KNOWLEDGE_BASES ->
              get_knowledge_base_by_id (id kb) = Some kb) /\
  (forall k, (k ∉ map id KNOWLEDGE_BASES) ->
             get_knowledge_base_by_id k = None) /\
  (forall kb nm, kb ∈ KNOWLEDGE_BASES ->
                 Str.lower nm = Str.lower (name kb) ->
                 get_knowledge_base_by_name nm = Some kb) /\
  (forall nm, (Str.lower nm ∉ map (fun kb => Str.lower (name kb)) KNOWLEDGE_BASES) ->
              get_knowledge_base_by_name nm = None).
Proof.
  split_and!.
  - exact ids_unique.
  - exact lowered_names_unique.
  - intros k kb. apply dict_comprehension_lookup, ids_unique.
  - intros k kb.
    apply (dict_comprehension_lookup (fun kb => Str.lower (name kb))).
    exact lowered_names_unique.
  - intros kb Hin. by apply by_id_lookup.
  - intros k Hnin. by apply dict_comprehension_absent; [exact ids_unique|].
  - intros kb nm Hin Hnm. by apply by_name_lookup.
  - intros nm Hnin.
    by apply (dict_comprehension_absent (fun kb => Str.lower (name kb)));
      [exact lowered_names_unique|].
Qed.

Example lookup_by_name_ignores_case :
  get_knowledge_base_by_name "pSYCHEDELIC aLPHA"
  = get_knowledge_base_by_id "5f6e1ea5-1f3f-431a-8759-b66810582b73"
  /\ (name <$> get_knowledge_base_by_name "pSYCHEDELIC aLPHA")
     = Some "Psychedelic Alpha".
Proof. split; vm_compute; reflexivity. Qed.

(** ** The listing *)

Lemma print_entries_run entries : forall out,
  print_entries entries out
  = (tt, out ++ flat_map (fun e => entry_block_spec (fst e) (snd e)) entries).
Proof.
  induction entries as [|[i kb] rest IH]; intros out; simpl.
  - by rewrite app_nil_r.
  - unfold mbind, IO_bind, print. rewrite IH. simpl.
    by rewrite <- !app_assoc.
Qed.

(** [enumerate(l, start)] pairs the element at index [i] with [start + i]. *)
Lemma enumerate_imap {A B} (f : nat -> A -> list B) (l : list A) : forall start,
  flat_map (fun e => f (fst e) (snd e)) (enumerate l start)
  = concat (imap (fun i x => f (start + i) x) l).
Proof.
  induction l as [|x l IH]; intros start; simpl; [reflexivity|].
  rewrite Nat.add_0_r, IH. do 2 f_equal.
  apply imap_ext. intros i y _. simpl. f_equal. lia.
Qed.

(** C8, as the code has it. [print_available_knowledge_bases] itself
    prints: after a heading and a rule it writes, for each catalog entry
    in catalog order, one block of four lines, the position counted from 1
    with the name, the id, the organization URL and an empty line, and
    then the usage examples, which do not depend on the catalog.  It
    returns nothing, and what was printed before stays in place. *)
Theorem print_available_listing out :
  print_available_knowledge_bases out
  = (tt, out ++ listing_heading
           ++ concat (imap (fun i kb => entry_block_spec (S i) kb) KNOWLEDGE_BASES)
           ++ usage_examples).
Proof.
  unfold print_available_knowledge_bases, mbind, IO_bind, print.
  rewrite print_entries_run.
  rewrite (enumerate_imap entry_block_spec KNOWLEDGE_BASES 1).
  unfold listing_heading, usage_examples.
  cbv beta iota. f_equal. rewrite <- !app_assoc. reflexivity.
Qed.

(** The listing is not silent: called on an empty output it leaves
    lines there, so printing is not left to the caller. *)
Lemma listing_prints : ~ listing_prints_nothing.
Proof.
  intros H. specialize (H []). vm_compute in H. discriminate H.
Qed.

Example listing_first_block :
  take 4 (drop 2 (snd (print_available_knowledge_bases [])))
  = [ codepoints "1. Blossom Analysis";
      codepoints "   ID: 8be6dfd9-ecaf-4e2b-8414-01aecb67e147";
      codepoints "   URL: https://blossomanalysis.com";
      codepoints "" ].
Proof. vm_compute. reflexivity. Qed.

Example listing_line_count :
  length (snd (print_available_knowledge_bases []))
  = 2 + 4 * length KNOWLEDGE_BASES + 4.
Proof. vm_compute. reflexivity. Qed.

(** ** The copy returned by [list_available_knowledge_bases] *)

Lemma loaded_catalog : Store.catalog Store.loaded = Some KNOWLEDGE_BASES.
Proof. reflexivity. Qed.

(** A mutation of the list object [l] leaves the records and every other
    list object as they were. *)
Lemma list_level_frame l m h h' other :
  Store.list_level m = true ->
  Store.mutate l m h = Some h' ->
  other <> l ->
  Store.records h' = Store.records h /\
  Store.lists h' !! other = Store.lists h !! other.
Proof.
  intros Hm Hrun Hother. unfold Store.mutate in Hrun.
  destruct (Store.lists h !! l) as [refs|]; [|discriminate]. simpl in Hrun.
  assert (forall refs', Store.lists (Store.set_list h l refs') !! other
                        = Store.lists h !! other) as Hset.
  { intros refs'. simpl. apply list_lookup_insert_ne. congruence. }
  destruct m as [i r|r|i| | |i f v]; try discriminate Hm;
    repeat match type of Hrun with
           | (if ?b then _ else _) = _ => destruct b; [|discriminate]
           end;
    injection Hrun as <-; (split; [reflexivity | apply Hset]).
Qed.

Lemma list_level_frame_all l ms : forall h h' other,
  forallb Store.list_level ms = true ->
  Store.mutate_all l ms h = Some h' ->
  other <> l ->
  Store.records h' = Store.records h /\
  Store.lists h' !! other = Store.lists h !! other.
Proof.
  induction ms as [|m ms IH]; intros h h' other Hms Hrun Hother; simpl in *.
  - injection Hrun as <-. by split.
  - apply andb_true_iff in Hms as [Hm Hms].
    destruct (Store.mutate l m h) as [hm|] eqn:Hstep; [|discriminate].
    simpl in Hrun.
    destruct (list_level_frame _ _ _ _ other Hm Hstep Hother) as [Hr Hl].
    destruct (IH _ _ other Hms Hrun Hother) as [Hr' Hl'].
    split; congruence.
Qed.

(** C9, as the code has it.  The call returns a new list object that
    reads as the catalog, in definition order, and leaves the catalog as
    it was.  Whatever the caller then does to that list object itself
    (assigning, appending or deleting elements, clearing, reversing), the
    records and the catalog list are as before, so the catalog reads the
    same.  The records are the shared ones: nothing is said here about
    assignments to their attributes. *)
Theorem copy_protects_the_list h l h1 ms h2 :
  Store.list_available_knowledge_bases h = Some (l, h1) ->
  forallb Store.list_level ms = true ->
  Store.mutate_all l ms h1 = Some h2 ->
  l <> Store.KNOWLEDGE_BASES_ref /\
  Store.read_list h1 l = Store.catalog h /\
  Store.catalog h1 = Store.catalog h /\
  Store.records h2 = Store.records h /\
  Store.lists h2 !! Store.KNOWLEDGE_BASES_ref
  = Store.lists h !! Store.KNOWLEDGE_BASES_ref /\
  Store.catalog h2 = Store.catalog h.
Proof.
  intros Hcall Hms Hrun. unfold Store.list_available_knowledge_bases in Hcall.
  destruct (Store.lists h !! Store.KNOWLEDGE_BASES_ref) as [refs|] eqn:Hcat;
    [|discriminate].
  simpl in Hcall. injection Hcall as <- <-.
  assert (length (Store.lists h) <> Store.KNOWLEDGE_BASES_ref) as Hfresh.
  { apply lookup_lt_Some in Hcat. lia. }
  destruct (list_level_frame_all _ _ _ _ Store.KNOWLEDGE_BASES_ref Hms Hrun)
    as [Hrecs Hlists]; [congruence|]. simpl in Hrecs, Hlists.
  assert ((Store.lists h ++ [refs]) !! Store.KNOWLEDGE_BASES_ref = Some refs)
    as Hkept by (by apply lookup_app_l_Some).
  split_and!.
  - exact Hfresh.
  - unfold Store.catalog, Store.read_list. cbn [Store.lists Store.records].
    by rewrite Hcat, list_lookup_middle.
  - unfold Store.catalog, Store.read_list. cbn [Store.lists Store.records].
    by rewrite Hcat, Hkept.
  - exact Hrecs.
  - by rewrite Hlists, Hkept.
  - unfold Store.catalog, Store.read_list. by rewrite Hlists, Hkept, Hcat, Hrecs.
Qed.

Lemma copy_protects_the_list_witness :
  exists h2,
    Store.mutate_all 1
      [Store.SetItem 0 3; Store.Append 1; Store.DelItem 2; Store.Reverse;
       Store.Clear]
      (Store.mkHeap KNOWLEDGE_BASES [[0; 1; 2; 3; 4]; [0; 1; 2; 3; 4]])
    = Some h2 /\
    Store.lists h2 !! 1 = Some [] /\
    Store.catalog h2 = Some KNOWLEDGE_BASES.
Proof.
  eexists. split; [reflexivity|]. split; [reflexivity|].
  apply (copy_protects_the_list Store.loaded 1
           (Store.mkHeap KNOWLEDGE_BASES [[0; 1; 2; 3; 4]; [0; 1; 2; 3; 4]])
           [Store.SetItem 0 3; Store.Append 1; Store.DelItem 2; Store.Reverse;
            Store.Clear]); reflexivity.
Defined.

(** The copy does not protect the records: renaming the first record
    through the returned list renames the first record of the catalog. *)
Lemma copy_shares_the_records : ~ Store.defensive_copy.
Proof.
  intros H.
  pose proof (H _ _ [Store.SetAttr 0 Store.f_name "Renamed"] _
                eq_refl eq_refl) as Hsame.
  vm_compute in Hsame. discriminate Hsame.
Qed.

Example rename_through_the_copy :
  (h2 ← Store.mutate 1 (Store.SetAttr 0 Store.f_name "Renamed")
         (Store.mkHeap KNOWLEDGE_BASES [[0; 1; 2; 3; 4]; [0; 1; 2; 3; 4]]);
   kbs ← Store.catalog h2;
   Some (map name kbs))
  = Some ["Renamed"; "Lucid News"; "MAPS"; "Psychedelic Alpha";
          "Psychedelics Today"].
Proof. vm_compute. reflexivity. Qed.

(** ** Names to ids *)

Lemma ids_by_names_loop_run names : forall ids,
  ids_by_names_loop names ids
  = ids ++ map id (omap get_knowledge_base_by_name names).
Proof.
  induction names as [|nm rest IH]; intros ids; simpl.
  - by rewrite app_nil_r.
  - destruct (get_knowledge_base_by_name nm) as [kb|]; rewrite IH; simpl;
      [by rewrite <- app_assoc | reflexivity].
Qed.

Lemma ids_by_names_run names :
  get_knowledge_base_ids_by_names names
  = map id (omap get_knowledge_base_by_name names).
Proof. apply (ids_by_names_loop_run names []). Qed.

Lemma omap_length_le {A B} (f : A -> option B) (l : list A) :
  length (omap f l) <= length l.
Proof.
  induction l as [|x l IH]; [reflexivity|].
  change (omap f (x :: l))
    with (match f x with Some y => y :: omap f l | None => omap f l end).
  destruct (f x); simpl; lia.
Qed.

(** X1. Looking up by id the ids that [get_knowledge_base_ids_by_names]
    returns gives the records that looking up the names gives, in the same
    order: each id it returns leads back to the record its name denotes. *)
Theorem ids_by_names_round_trip names :
  omap get_knowledge_base_by_id (get_knowledge_base_ids_by_names names)
  = omap get_knowledge_base_by_name names.
Proof.
  rewrite ids_by_names_run.
  induction names as [|nm rest IH]; simpl; [reflexivity|].
  destruct (get_knowledge_base_by_name nm) as [kb|] eqn:Hkb; simpl; [|exact IH].
  apply by_name_lookup in Hkb as [Hin _].
  assert (get_knowledge_base_by_id (id kb) = Some kb) as ->
    by by apply by_id_lookup.
  f_equal. exact IH.
Qed.

(** A lookup by name fails exactly for the names whose lowered form is
    the lowered name of no catalog entry. *)
Lemma by_name_none nm :
  get_knowledge_base_by_name nm = None
  <-> Str.lower nm ∉ map (fun kb => Str.lower (name kb)) KNOWLEDGE_BASES.
Proof.
  apply (dict_comprehension_absent (fun kb => Str.lower (name kb))).
  exact lowered_names_unique.
Qed.

(** X2. [get_knowledge_base_ids_by_names] returns ids of the catalog only
    and at most one per name.  A name whose lowered form is the lowered
    name of no catalog entry, be it of the shape of an id, is left out: the
    result is that of the names around it.  A name of a catalog entry, in
    any letter case, gives the id of that entry at its place.  So the
    result has as many ids as there are names of catalog entries among the
    names given. *)
Theorem ids_by_names_in_catalog names :
  Forall (fun i => i ∈ map id KNOWLEDGE_BASES)
         (get_knowledge_base_ids_by_names names) /\
  length (get_knowledge_base_ids_by_names names) <= length names /\
  (forall pre nm post,
     names = pre ++ nm :: post ->
     (Str.lower nm ∉ map (fun kb => Str.lower (name kb)) KNOWLEDGE_BASES) ->
     get_knowledge_base_ids_by_names names
     = get_knowledge_base_ids_by_names pre
       ++ get_knowledge_base_ids_by_names post) /\
  (forall pre nm post kb,
     names = pre ++ nm :: post ->
     kb ∈ KNOWLEDGE_BASES ->
     Str.lower nm = Str.lower (name kb) ->
     get_knowledge_base_ids_by_names names
     = get_knowledge_base_ids_by_names pre
       ++ id kb :: get_knowledge_base_ids_by_names post) /\
  length (get_knowledge_base_ids_by_names names)
  = length (filter (fun nm => Str.lower nm
                              ∈ map (fun kb => Str.lower (name kb))
                                    KNOWLEDGE_BASES)
                   names).
Proof.
  split_and!.
  - rewrite ids_by_names_run. apply Forall_fmap, Forall_forall. intros kb Hkb.
    apply list_elem_of_omap in Hkb as (nm & _ & Hkb).
    apply by_name_lookup in Hkb as [Hin _].
    change (id kb ∈ id <$> KNOWLEDGE_BASES).
    apply list_elem_of_fmap. by exists kb.
  - rewrite ids_by_names_run, length_map. apply omap_length_le.
  - intros pre nm post -> Hnm. apply by_name_none in Hnm.
    rewrite !ids_by_names_run, omap_app, map_app.
    change (omap get_knowledge_base_by_name (nm :: post))
      with (match get_knowledge_base_by_name nm with
            | Some kb => kb :: omap get_knowledge_base_by_name post
            | None => omap get_knowledge_base_by_name post
            end).
    by rewrite Hnm.
  - intros pre nm post kb -> Hin Hnm.
    assert (get_knowledge_base_by_name nm = Some kb) as Hkb
      by by apply by_name_lookup.
    rewrite !ids_by_names_run, omap_app, map_app.
    change (omap get_knowledge_base_by_name (nm :: post))
      with (match get_knowledge_base_by_name nm with
            | Some kb => kb :: omap get_knowledge_base_by_name post
            | None => omap get_knowledge_base_by_name post
            end).
    by rewrite Hkb.
  - rewrite ids_by_names_run, length_map.
    induction names as [|nm rest IH]; [reflexivity|].
    change (omap get_knowledge_base_by_name (nm :: rest))
      with (match get_knowledge_base_by_name nm with
            | Some kb => kb :: omap get_knowledge_base_by_name rest
            | None => omap get_knowledge_base_by_name rest
            end).
    destruct (get_knowledge_base_by_name nm) as [kb|] eqn:Hkb.
    + rewrite filter_cons_True; [simpl; by rewrite IH|].
      destruct (decide (Str.lower nm ∈ map (fun kb => Str.lower (name kb))
                                           KNOWLEDGE_BASES))
        as [Hin | Hnin]; [exact Hin|].
      apply by_name_none in Hnin. congruence.
    + rewrite filter_cons_False; [exact IH|].
      intros Hin. by apply by_name_none in Hkb.
Qed.

Example ids_by_names_drops_an_id :
  get_knowledge_base_ids_by_names
    ["MAPS"; "8be6dfd9-ecaf-4e2b-8414-01aecb67e147"; " MAPS"; "maps"]
  = ["f88d9d45-f25e-4051-8a84-a8d7873622b8";
     "f88d9d45-f25e-4051-8a84-a8d7873622b8"].
Proof. vm_compute. reflexivity. Qed.

(** X3. The ids of a concatenation of name lists are the ids of the first
    list followed by those of the second. *)
Theorem ids_by_names_app names1 names2 :
  get_knowledge_base_ids_by_names (names1 ++ names2)
  = get_knowledge_base_ids_by_names names1
    ++ get_knowledge_base_ids_by_names names2.
Proof. by rewrite !ids_by_names_run, omap_app, map_app. Qed.

(** X4. On a selection that does not spell [all] and has no piece of the
    shape of an id, [parse_knowledge_base_selection] returns what
    [get_knowledge_base_ids_by_names] returns on the trimmed pieces. *)
Theorem parse_names_only s out :
  Str.lower s <> "all" ->
  Forall (fun item => is_id_shaped item = false) (selection_items s) ->
  fst (parse_knowledge_base_selection (Some s) out)
  = get_knowledge_base_ids_by_names (selection_items s).
Proof.
  intros Hall Hnames. rewrite parse_items by exact Hall.
  rewrite resolve_items_run, ids_by_names_run. simpl.
  induction Hnames as [|item rest Hitem _ IH]; simpl; [reflexivity|].
  unfold resolve_piece_spec at 1. rewrite Hitem.
  destruct (get_knowledge_base_by_name item); simpl; by rewrite IH.
Qed.

Lemma parse_names_only_witness :
  fst (parse_knowledge_base_selection (Some " maps ,, Nobody,Lucid News") [])
  = get_knowledge_base_ids_by_names ["maps"; "Nobody"; "Lucid News"].
Proof.
  apply (parse_names_only " maps ,, Nobody,Lucid News" []);
    [discriminate | repeat constructor].
Defined.

Lemma piece_resolvable item :
  resolvable item ->
  length (resolve_piece_spec item) = 1 /\ warn_piece_spec item = [].
Proof.
  intros Hres. destruct (is_id_shaped item) eqn:Hshape.
  - by destruct (piece_id_shaped _ Hshape) as [-> ->].
  - destruct Hres as [Hres | Hres]; [congruence|].
    destruct (get_knowledge_base_by_name item) as [kb|] eqn:Hkb.
    + by destruct (piece_found _ _ Hshape Hkb) as [-> ->].
    + by apply by_name_none in Hkb.
Qed.

Lemma piece_not_resolvable item :
  ~ resolvable item ->
  resolve_piece_spec item = [] /\ warn_piece_spec item = [warning item].
Proof.
  intros Hres. apply piece_not_found.
  - destruct (is_id_shaped item) eqn:Hshape; [|reflexivity].
    exfalso. apply Hres. by left.
  - apply by_name_none. intros Hin. apply Hres. by right.
Qed.

(** X5. Past the [all] test every trimmed piece is accounted for once.  A
    piece that has the shape of an id or is, in any letter case, the name
    of a catalog entry gives one id and no call of [print]; any other
    piece gives no id and one call of [print], with its own warning, in
    the order of the pieces.  So the ids returned and the calls of [print]
    add up to the number of pieces. *)
Theorem parse_accounts_for_every_piece s out :
  Str.lower s <> "all" ->
  length (fst (parse_knowledge_base_selection (Some s) out))
  = length (filter resolvable (selection_items s)) /\
  snd (parse_knowledge_base_selection (Some s) out)
  = out ++ map warning
             (filter (fun item => ~ resolvable item) (selection_items s)) /\
  length (fst (parse_knowledge_base_selection (Some s) out))
  + length (snd (parse_knowledge_base_selection (Some s) out))
  = length (selection_items s) + length out.
Proof.
  intros Hall. rewrite parse_items by exact Hall.
  rewrite resolve_items_run. cbn [fst snd app].
  assert (length (flat_map resolve_piece_spec (selection_items s))
          = length (filter resolvable (selection_items s)) /\
          flat_map warn_piece_spec (selection_items s)
          = map warning (filter (fun item => ~ resolvable item)
                                (selection_items s)) /\
          length (flat_map resolve_piece_spec (selection_items s))
          + length (flat_map warn_piece_spec (selection_items s))
          = length (selection_items s)) as (Hids & Hwarn & Hsum).
  { induction (selection_items s) as [|item rest (IHids & IHwarn & IHsum)];
      [by split_and!|].
    cbn [flat_map]. rewrite !length_app.
    destruct (decide (resolvable item)) as [Hres | Hres].
    - destruct (piece_resolvable _ Hres) as [Hone ->].
      rewrite filter_cons_True by exact Hres.
      rewrite filter_cons_False by (intros Hn; by apply Hn).
      cbn [app length]. split_and!; [lia | exact IHwarn | lia].
    - destruct (piece_not_resolvable _ Hres) as [-> ->].
      rewrite filter_cons_False by exact Hres.
      rewrite filter_cons_True by exact Hres.
      cbn [app length map]. split_and!; [lia | by rewrite IHwarn | lia]. }
  split_and!; [exact Hids | by rewrite Hwarn |].
  rewrite length_app. lia.
Qed.

Lemma parse_accounts_for_every_piece_witness :
  length (fst (parse_knowledge_base_selection
                 (Some "Blossom Analysis,Nonexistent Org,MAPS") []))
  = 2 /\
  snd (parse_knowledge_base_selection
         (Some "Blossom Analysis,Nonexistent Org,MAPS") [])
  = [warning "Nonexistent Org"] /\
  length (fst (parse_knowledge_base_selection
                 (Some "Blossom Analysis,Nonexistent Org,MAPS") []))
  + length (snd (parse_knowledge_base_selection
                   (Some "Blossom Analysis,Nonexistent Org,MAPS") []))
  = 3 + 0.
Proof.
  apply (parse_accounts_for_every_piece
           "Blossom Analysis,Nonexistent Org,MAPS" []).
  discriminate.
Defined.

(** X6. The selector makes up no id: whatever the selection, each id it
    returns is an id of the catalog or one of the trimmed pieces of the
    selection itself. *)
Theorem parse_invents_no_id selection out :
  Forall (fun i => i ∈ map id KNOWLEDGE_BASES
                   \/ exists s, selection = Some s /\ i ∈ selection_items s)
         (fst (parse_knowledge_base_selection selection out)).
Proof.
  destruct selection as [s|]; [|constructor].
  unfold parse_knowledge_base_selection.
  destruct (negb (Str.truthy s)); [constructor|].
  destruct (String.eqb (Str.lower s) "all").
  - apply Forall_forall. intros i Hi. by left.
  - rewrite resolve_items_run. simpl fst.
    apply Forall_flat_map, Forall_forall. intros item Hitem.
    unfold resolve_piece_spec.
    destruct (is_id_shaped item).
    + constructor; [|constructor]. right. by exists s.
    + destruct (get_knowledge_base_by_name item) as [kb|] eqn:Hkb; [|constructor].
      apply by_name_lookup in Hkb as [Hin _].
      constructor; [|constructor]. left.
      change (id kb ∈ id <$> KNOWLEDGE_BASES).
      apply list_elem_of_fmap. by exists kb.
Qed.

(** ** Splitting and trimming *)

Section SplitStrip.

Lemma split_nonempty sep s : Str.split sep s <> [].
Proof.
  destruct s as [|c s]; simpl; [discriminate|].
  destruct (Ascii.eqb c sep); [discriminate|].
  destruct (Str.split sep s); discriminate.
Qed.

(** No piece of a split holds the separator. *)
Lemma split_no_sep sep s :
  Forall (fun p => Str.count sep p = 0) (Str.split sep s).
Proof.
  induction s as [|c s IH]; simpl; [by repeat constructor|].
  destruct (Ascii.eqb c sep) eqn:Hc; [by constructor|].
  destruct (Str.split sep s) as [|p ps]; [by repeat constructor; simpl; rewrite Hc|].
  apply Forall_cons in IH as [Hp Hps].
  constructor; [|exact Hps]. simpl. by rewrite Hc.
Qed.

Lemma lstrip_length s : String.length (Str.lstrip s) <= String.length s.
Proof.
  induction s as [|c s IH]; simpl; [lia|].
  destruct (Str.isspace c); simpl; lia.
Qed.

Lemma lstrip_idem s : Str.lstrip (Str.lstrip s) = Str.lstrip s.
Proof.
  induction s as [|c s IH]; simpl; [reflexivity|].
  destruct (Str.isspace c) eqn:Hc; [exact IH|]. simpl. by rewrite Hc.
Qed.

Lemma rstrip_idem s : Str.rstrip (Str.rstrip s) = Str.rstrip s.
Proof.
  induction s as [|c s IH]; simpl; [reflexivity|].
  destruct (Str.rstrip s) as [|d r] eqn:Hr.
  - destruct (Str.isspace c) eqn:Hc; simpl; [reflexivity|]. by rewrite Hc.
  - change (Str.rstrip (String c (String d r)))
      with (match Str.rstrip (String d r) with
            | EmptyString =>
                if Str.isspace c then EmptyString else String c EmptyString
            | String _ _ as r' => String c r'
            end).
    by rewrite IH.
Qed.

(** Trimming the right end of a string that starts with no whitespace
    leaves its start as it is. *)
Lemma lstrip_rstrip s :
  Str.lstrip s = s -> Str.lstrip (Str.rstrip s) = Str.rstrip s.
Proof.
  destruct s as [|c s]; [reflexivity|]. simpl.
  destruct (Str.isspace c) eqn:Hc.
  - intros Heq. pose proof (lstrip_length s) as Hlen.
    rewrite Heq in Hlen. simpl in Hlen. lia.
  - intros _. destruct (Str.rstrip s); simpl; by rewrite Hc.
Qed.

Lemma strip_idem s : Str.strip (Str.strip s) = Str.strip s.
Proof.
  unfold Str.strip.
  rewrite (lstrip_rstrip (Str.lstrip s)) by apply lstrip_idem.
  apply rstrip_idem.
Qed.

Lemma count_lstrip c s : Str.count c (Str.lstrip s) <= Str.count c s.
Proof.
  induction s as [|d s IH]; simpl; [lia|].
  destruct (Str.isspace d); simpl; lia.
Qed.

Lemma count_rstrip c s : Str.count c (Str.rstrip s) <= Str.count c s.
Proof.
  induction s as [|d s IH]; simpl; [lia|].
  destruct (Str.rstrip s) as [|e r].
  - destruct (Str.isspace d); simpl in *; lia.
  - simpl in *. lia.
Qed.

Lemma count_strip c s : Str.count c (Str.strip s) <= Str.count c s.
Proof.
  unfold Str.strip. pose proof (count_rstrip c (Str.lstrip s)).
  pose proof (count_lstrip c s). lia.
Qed.

(** A string of whitespace only trims to the empty string. *)
Lemma strip_blank s : Str.lstrip s = "" -> Str.strip s = "".
Proof. unfold Str.strip. by intros ->. Qed.

(** The pieces of a string of commas and whitespace are blank. *)
Lemma split_blank s :
  Forall (fun c => c = ","%char \/ Str.isspace c = true)
         (list_ascii_of_string s) ->
  Forall (fun p => Str.lstrip p = "") (Str.split "," s).
Proof.
  induction s as [|c s IH]; simpl; intros Hs; [by repeat constructor|].
  apply Forall_cons in Hs as [Hc Hs]. specialize (IH Hs).
  destruct (Ascii.eqb_spec c ","); [by constructor|].
  destruct Hc as [Hc | Hc]; [contradiction|].
  destruct (Str.split "," s) as [|p ps]; [by repeat constructor; simpl; rewrite Hc|].
  apply Forall_cons in IH as [Hp Hps].
  constructor; [|exact Hps]. simpl. by rewrite Hc.
Qed.

End SplitStrip.

(** X7. Every item the selector resolves is non-empty, holds no comma and
    has no whitespace at either end: trimming it again changes nothing. *)
Theorem selection_items_trimmed s :
  Forall (fun item => item <> "" /\ Str.count "," item = 0
                      /\ Str.strip item = item)
         (selection_items s).
Proof.
  unfold selection_items. apply Forall_fmap, Forall_forall.
  intros p Hp. apply list_elem_of_In, filter_In in Hp as [Hp Hne].
  pose proof (proj1 (Forall_forall _ _) (split_no_sep "," s) p
                (proj2 (list_elem_of_In _ _) Hp)) as Hcount.
  simpl in Hcount. simpl. split_and!.
  - intros Heq. by rewrite Heq in Hne.
  - pose proof (count_strip "," p). lia.
  - apply strip_idem.
Qed.

(** X8. A selection made of commas and whitespace only, however long,
    gives the empty list and prints nothing, like the empty selection. *)
Theorem parse_separators_only s out :
  Forall (fun c => c = ","%char \/ Str.isspace c = true)
         (list_ascii_of_string s) ->
  parse_knowledge_base_selection (Some s) out = ([], out).
Proof.
  intros Hs.
  assert (Str.lower s <> "all") as Hall.
  { intros Hall. destruct s as [|c s]; [discriminate|].
    injection Hall as Hc _. apply Forall_cons in Hs as [[-> | Hsp] _].
    - discriminate Hc.
    - apply lower_char_a in Hc as [-> | ->]; discriminate Hsp. }
  rewrite parse_items by exact Hall.
  assert (selection_items s = []) as ->; [|reflexivity].
  unfold selection_items.
  induction (split_blank s Hs) as [|p ps Hp _ IH]; simpl; [reflexivity|].
  by rewrite (strip_blank p Hp).
Qed.

Lemma parse_separators_only_witness :
  parse_knowledge_base_selection (Some " ,, ,  ") [] = ([], []).
Proof.
  apply (parse_separators_only " ,, ,  " []).
  repeat (apply Forall_cons_2;
          [first [left; reflexivity | right; reflexivity]|]).
  apply Forall_nil_2.
Defined.

(** ** The text of a record *)





(** ** Duplicate keys in an index *)

Lemma dict_fold_last (key : KnowledgeBase -> string) kbs :
  forall (d : gmap string KnowledgeBase) k,
  fold_left (fun d kb => <[key kb := kb]> d) kbs d !! k
  = match last (filter (fun kb => key kb = k) kbs) with
    | Some kb => Some kb
    | None => d !! k
    end.
Proof.
  induction kbs as [|a l IH]; intros d k; simpl; [reflexivity|].
  rewrite IH. destruct (decide (key a = k)) as [Heq | Hne].
  - rewrite filter_cons_True by exact Heq. rewrite last_cons.
    destruct (last (filter (fun kb => key kb = k) l)); [reflexivity|].
    rewrite <- Heq. apply lookup_insert_eq.
  - rewrite filter_cons_False by exact Hne.
    destruct (last (filter (fun kb => key kb = k) l)); [reflexivity|].
    by apply lookup_insert_ne.
Qed.

(** X10. An index built from any list of records, distinct keys or not,
    gives for a key the last record of the list that has this key, and
    nothing when no record has it: of two entries with the same key the
    later one is the one found. *)
Theorem dict_comprehension_last_wins (key : KnowledgeBase -> string) kbs k :
  dict_comprehension key kbs !! k = last (filter (fun kb => key kb = k) kbs).
Proof.
  unfold dict_comprehension. rewrite dict_fold_last.
  by destruct (last (filter (fun kb => key kb = k) kbs)).
Qed.

Example later_entry_shadows :
  name <$> (dict_comprehension (fun kb => Str.lower (name kb))
              (KNOWLEDGE_BASES
                 ++ [mkKnowledgeBase "00000000-0000-0000-0000-000000000000"
                       "maps" "" "" ""]) !! "maps")
  = Some "maps".
Proof. vm_compute. reflexivity. Qed.

(** ** The tools built from the resolved ids *)

Lemma enumerate_app {A} (l1 l2 : list A) : forall start,
  enumerate (l1 ++ l2) start
  = enumerate l1 start ++ enumerate l2 (start + length l1).
Proof.
  induction l1 as [|x l1 IH]; intros start; simpl.
  - by rewrite Nat.add_0_r.
  - rewrite IH. do 3 f_equal. lia.
Qed.

Lemma tools_loop_acc key entries : forall tools,
  Structure.tools_loop key entries tools
  = tools ++ Structure.tools_loop key entries [].
Proof.
  induction entries as [|[i kb_id] rest IH]; intros tools; simpl.
  - by rewrite app_nil_r.
  - destruct (Str.truthy kb_id); [|apply IH].
    rewrite IH. symmetry. rewrite IH. by rewrite <- app_assoc.
Qed.

Lemma tools_loop_app key entries1 entries2 tools :
  Structure.tools_loop key (entries1 ++ entries2) tools
  = Structure.tools_loop key entries2 (Structure.tools_loop key entries1 tools).
Proof.
  revert tools. induction entries1 as [|[i kb_id] rest IH]; intros tools; simpl;
    [reflexivity|].
  destruct (Str.truthy kb_id); apply IH.
Qed.

(** The loop makes one tool for each non-empty id, in order, with the key
    it was given. *)
Lemma tools_loop_ids key ids : forall start,
  map Structure.knowledge_base_id
      (Structure.tools_loop key (enumerate ids start) [])
  = List.filter Str.truthy ids /\
  Forall (fun tool => Structure.api_key tool = key)
         (Structure.tools_loop key (enumerate ids start) []).
Proof.
  induction ids as [|kb_id ids IH]; intros start; simpl; [by split|].
  destruct (IH (S start)) as [Hids Hkey].
  destruct (Str.truthy kb_id); [|by split].
  rewrite tools_loop_acc. simpl. rewrite Hids. split; [reflexivity|].
  by constructor.
Qed.

(** X11. With an API key in the environment, [get_knowledge_base_tools]
    prints nothing and makes one tool for each non-empty id of its
    argument, in the order of the argument, for that id and with that
    key, whether or not the catalog knows the id; empty ids get no tool. *)
Theorem tools_one_per_id key ids out :
  key <> "" ->
  snd (Structure.get_knowledge_base_tools (Some key) ids out) = out /\
  map Structure.knowledge_base_id
      (fst (Structure.get_knowledge_base_tools (Some key) ids out))
  = List.filter Str.truthy ids /\
  Forall (fun tool => Structure.api_key tool = key)
         (fst (Structure.get_knowledge_base_tools (Some key) ids out)).
Proof.
  intros Hkey. unfold Structure.get_knowledge_base_tools.
  destruct key as [|c key]; [contradiction|]. simpl.
  split; [reflexivity|]. apply tools_loop_ids.
Qed.

Lemma tools_one_per_id_witness :
  map Structure.knowledge_base_id
      (fst (Structure.get_knowledge_base_tools (Some "secret")
              [""; "11111111-1111-1111-1111-111111111111"; "";
               "f88d9d45-f25e-4051-8a84-a8d7873622b8"] []))
  = ["11111111-1111-1111-1111-111111111111";
     "f88d9d45-f25e-4051-8a84-a8d7873622b8"].
Proof.
  apply (tools_one_per_id "secret"
           [""; "11111111-1111-1111-1111-111111111111"; "";
            "f88d9d45-f25e-4051-8a84-a8d7873622b8"] []).
  discriminate.
Defined.

(** Without a key, absent or empty, no tool is made, whatever the ids,
    and one warning is printed. *)
Lemma tools_without_key ids out :
  Structure.get_knowledge_base_tools None ids out
  = ([], out ++ [Structure.missing_key_warning]) /\
  Structure.get_knowledge_base_tools (Some "") ids out
  = ([], out ++ [Structure.missing_key_warning]).
Proof. split; reflexivity. Qed.

Lemma id_shaped_truthy i : is_id_shaped i = true -> Str.truthy i = true.
Proof. destruct i; [discriminate | reflexivity]. Qed.

(** The ids the selector returns are never empty. *)
Lemma parse_ids_truthy selection out :
  Forall (fun i => Str.truthy i = true)
         (fst (parse_knowledge_base_selection selection out)).
Proof.
  eapply Forall_impl; [|intros i Hi; apply id_shaped_truthy, Hi].
  destruct selection as [s|]; [|constructor].
  unfold parse_knowledge_base_selection.
  destruct (negb (Str.truthy s)); [constructor|].
  destruct (String.eqb (Str.lower s) "all").
  - change (Forall (fun i => is_id_shaped i = true) (id <$> KNOWLEDGE_BASES)).
    apply Forall_fmap. exact catalog_ids_shaped.
  - rewrite resolve_items_run. simpl fst.
    apply Forall_flat_map, Forall_forall. intros item _.
    unfold resolve_piece_spec.
    destruct (is_id_shaped item) eqn:Hshape; [by repeat constructor|].
    destruct (get_knowledge_base_by_name item) as [kb|] eqn:Hkb; [|constructor].
    apply by_name_lookup in Hkb as [Hin _].
    repeat constructor.
    by apply (proj1 (Forall_forall _ _) catalog_ids_shaped).
Qed.

Lemma filter_all {A} (f : A -> bool) (l : list A) :
  Forall (fun x => f x = true) l -> List.filter f l = l.
Proof.
  induction 1 as [|x l Hx _ IH]; simpl; [reflexivity|]. by rewrite Hx, IH.
Qed.

(** X12. What the script does with a selection: with an API key in the
    environment, the tools made from the ids that
    [parse_knowledge_base_ids] returns are one for each of these ids, in
    their order; no resolved id is left without a tool, those that the
    catalog has not included. *)
Theorem tools_for_every_resolved_id selection key out :
  key <> "" ->
  map Structure.knowledge_base_id
      (fst (Structure.get_knowledge_base_tools (Some key)
              (fst (Structure.parse_knowledge_base_ids selection out))
              (snd (Structure.parse_knowledge_base_ids selection out))))
  = fst (Structure.parse_knowledge_base_ids selection out).
Proof.
  intros Hkey. unfold Structure.get_knowledge_base_tools.
  destruct key as [|c key]; [contradiction|]. simpl.
  rewrite (proj1 (tools_loop_ids _ _ 0)).
  apply filter_all, parse_ids_truthy.
Qed.

Lemma tools_for_every_resolved_id_witness :
  map Structure.knowledge_base_id
      (fst (Structure.get_knowledge_base_tools (Some "secret")
              (fst (Structure.parse_knowledge_base_ids
                      (Some "maps,11111111-1111-1111-1111-111111111111,nobody") []))
              (snd (Structure.parse_knowledge_base_ids
                      (Some "maps,11111111-1111-1111-1111-111111111111,nobody") []))))
  = ["f88d9d45-f25e-4051-8a84-a8d7873622b8";
     "11111111-1111-1111-1111-111111111111"].
Proof.
  apply (tools_for_every_resolved_id
           (Some "maps,11111111-1111-1111-1111-111111111111,nobody")
           "secret" []).
  discriminate.
Defined.

(** X13. The description of the tool made for a non-empty id.  An id of
    the catalog is described by the name and the organization URL of its
    record.  Any other id is described as knowledge base number [n], where
    [n] is the position of the id in the argument counted from 1, empty
    ids before it included.  The tool stands in the result after the tools
    of the non-empty ids before it. *)
Theorem tool_description key pre kb_id post out :
  key <> "" ->
  kb_id <> "" ->
  exists tool,
    fst (Structure.get_knowledge_base_tools (Some key)
           (pre ++ kb_id :: post) out)
      !! length (List.filter Str.truthy pre) = Some tool /\
    Structure.knowledge_base_id tool = kb_id /\
    Structure.description tool
    = match get_knowledge_base_by_id kb_id with
      | Some kb =>
          ((name kb ++ ": Contains specialized information and documents")
             ++ " from " ++ org_url kb)%string
      | None =>
          (("Knowledge base #" ++ Str.of_nat (length pre + 1))
             ++ ": Contains specialized information and documents")%string
      end.
Proof.
  intros Hkey Hid. unfold Structure.get_knowledge_base_tools.
  destruct key as [|c key]; [contradiction|].
  destruct kb_id as [|d kb_id]; [contradiction|].
  cbn [Str.truthy negb fst mret IO_ret].
  rewrite enumerate_app, tools_loop_app. cbn [enumerate].
  set (before := Structure.tools_loop (String c key) (enumerate pre 0) []).
  assert (length before = length (List.filter Str.truthy pre)) as Hlen.
  { rewrite <- (proj1 (tools_loop_ids (String c key) pre 0)).
    by rewrite length_map. }
  cbn [Structure.tools_loop Str.truthy]. rewrite tools_loop_acc.
  rewrite <- Hlen, <- app_assoc. simpl app.
  rewrite list_lookup_middle by reflexivity.
  eexists. split; [reflexivity|]. split; [reflexivity|]. simpl.
  by destruct (get_knowledge_base_by_id (String d kb_id)).
Qed.

Lemma tool_description_witness :
  exists tool,
    fst (Structure.get_knowledge_base_tools (Some "secret")
           ([""; "MAPS"] ++ "11111111-1111-1111-1111-111111111111" :: []) [])
      !! 1 = Some tool /\
    Structure.knowledge_base_id tool = "11111111-1111-1111-1111-111111111111" /\
    Structure.description tool
    = "Knowledge base #3: Contains specialized information and documents".
Proof.
  apply (tool_description "secret" [""; "MAPS"]
           "11111111-1111-1111-1111-111111111111" [] []); discriminate.
Defined.

(** ** Two copies of the catalog *)

(** X14. Two calls of [list_available_knowledge_bases] return two
    different list objects, and whatever the caller does to the first
    list itself, the second still reads as the catalog did. *)
Theorem copies_are_independent h l1 h1 l2 h2 ms h3 :
  Store.list_available_knowledge_bases h = Some (l1, h1) ->
  Store.list_available_knowledge_bases h1 = Some (l2, h2) ->
  forallb Store.list_level ms = true ->
  Store.mutate_all l1 ms h2 = Some h3 ->
  l1 <> l2 /\ Store.read_list h3 l2 = Store.catalog h.
Proof.
  intros Hcall1 Hcall2 Hms Hrun.
  unfold Store.list_available_knowledge_bases in Hcall1, Hcall2.
  destruct (Store.lists h !! Store.KNOWLEDGE_BASES_ref) as [refs|] eqn:Hcat;
    [|discriminate].
  simpl in Hcall1. injection Hcall1 as <- <-.
  cbn [Store.lists Store.records] in Hcall2.
  rewrite (lookup_app_l_Some _ _ _ _ Hcat) in Hcall2.
  simpl in Hcall2. injection Hcall2 as <- <-.
  assert (length (Store.lists h ++ [refs]) <> length (Store.lists h)) as Hne
    by (rewrite length_app; simpl; lia).
  split; [congruence|].
  destruct (list_level_frame_all _ _ _ _
              (length (Store.lists h ++ [refs])) Hms Hrun Hne)
    as [Hrecs Hlists].
  unfold Store.catalog, Store.read_list.
  rewrite Hlists, Hrecs. cbn [Store.lists Store.records].
  by rewrite list_lookup_middle, Hcat.
Qed.

Lemma copies_are_independent_witness :
  exists h3,
    Store.mutate_all 1 [Store.Clear; Store.Append 4]
      (Store.mkHeap KNOWLEDGE_BASES
         [[0; 1; 2; 3; 4]; [0; 1; 2; 3; 4]; [0; 1; 2; 3; 4]])
    = Some h3 /\
    Store.lists h3 !! 1 = Some [4] /\
    Store.read_list h3 2 = Some KNOWLEDGE_BASES.
Proof.
  eexists. split; [reflexivity|]. split; [reflexivity|].
  apply (copies_are_independent Store.loaded 1
           (Store.mkHeap KNOWLEDGE_BASES [[0; 1; 2; 3; 4]; [0; 1; 2; 3; 4]])
           2
           (Store.mkHeap KNOWLEDGE_BASES
              [[0; 1; 2; 3; 4]; [0; 1; 2; 3; 4]; [0; 1; 2; 3; 4]])
           [Store.Clear; Store.Append 4]); reflexivity.
Defined.

(** ** Selecting by a name of the catalog *)

Section LowerFacts.

Lemma lower_char_comma c :
  Ascii.eqb (Str.lower_char c) "," = Ascii.eqb c ",".
Proof. destruct c as [[] [] [] [] [] [] [] []]; reflexivity. Qed.

Lemma isspace_lower c : Str.isspace (Str.lower_char c) = Str.isspace c.
Proof. destruct c as [[] [] [] [] [] [] [] []]; reflexivity. Qed.

Lemma count_comma_lower s : Str.count "," (Str.lower s) = Str.count "," s.
Proof.
  induction s as [|c s IH]; simpl; [reflexivity|].
  by rewrite lower_char_comma, IH.
Qed.

Lemma lstrip_lower s : Str.lower (Str.lstrip s) = Str.lstrip (Str.lower s).
Proof.
  induction s as [|c s IH]; simpl; [reflexivity|].
  rewrite isspace_lower. by destruct (Str.isspace c).
Qed.

Lemma rstrip_lower s : Str.lower (Str.rstrip s) = Str.rstrip (Str.lower s).
Proof.
  induction s as [|c s IH]; simpl; [reflexivity|].
  rewrite <- IH, isspace_lower.
  destruct (Str.rstrip s); simpl; [by destruct (Str.isspace c) | reflexivity].
Qed.

Lemma strip_lower s : Str.lower (Str.strip s) = Str.strip (Str.lower s).
Proof. unfold Str.strip. by rewrite rstrip_lower, lstrip_lower. Qed.

(** Trimming removes no character that is not whitespace. *)
Lemma count_lstrip_eq c s :
  Str.isspace c = false -> Str.count c (Str.lstrip s) = Str.count c s.
Proof.
  intros Hc. induction s as [|d s IH]; simpl; [reflexivity|].
  destruct (Str.isspace d) eqn:Hd; [|reflexivity].
  destruct (Ascii.eqb_spec d c) as [-> | _]; [congruence | exact IH].
Qed.

Lemma count_rstrip_eq c s :
  Str.isspace c = false -> Str.count c (Str.rstrip s) = Str.count c s.
Proof.
  intros Hc. induction s as [|d s IH]; simpl; [reflexivity|].
  rewrite <- IH. destruct (Str.rstrip s); [|reflexivity].
  destruct (Str.isspace d) eqn:Hd; [|reflexivity]. simpl.
  destruct (Ascii.eqb_spec d c) as [-> | _]; [congruence | reflexivity].
Qed.

Lemma count_strip_eq c s :
  Str.isspace c = false -> Str.count c (Str.strip s) = Str.count c s.
Proof.
  intros Hc. unfold Str.strip. by rewrite count_rstrip_eq, count_lstrip_eq.
Qed.

(** A string without the separator is its own single piece. *)
Lemma split_no_comma sep s : Str.count sep s = 0 -> Str.split sep s = [s].
Proof.
  induction s as [|c s IH]; simpl; [reflexivity|].
  destruct (Ascii.eqb c sep); [discriminate|].
  intros Hs. by rewrite IH.
Qed.

End LowerFacts.

(** The lowered names of the catalog: none spells [all], holds a comma,
    is empty, has whitespace at an end or is as long as an id. *)
Lemma catalog_names_plain :
  Forall (fun kb =>
            Str.lower (name kb) <> "all" /\
            Str.count "," (Str.lower (name kb)) = 0 /\
            Str.strip (Str.lower (name kb)) = Str.lower (name kb) /\
            Str.lower (name kb) <> "" /\
            String.length (Str.lower (name kb)) <> 36)
         KNOWLEDGE_BASES.
Proof.
  repeat (apply Forall_cons_2;
          [split_and!; [discriminate | reflexivity | reflexivity
                        | discriminate | discriminate]|]).
  apply Forall_nil_2.
Qed.

(** X15. The name of a catalog entry, in any letter case and with any
    whitespace around it, selects the id of that entry and nothing else,
    without a warning. *)
Theorem parse_catalog_name kb nm out :
  kb ∈ KNOWLEDGE_BASES ->
  Str.lower (Str.strip nm) = Str.lower (name kb) ->
  parse_knowledge_base_selection (Some nm) out = ([id kb], out).
Proof.
  intros Hin Hnm.
  destruct (proj1 (Forall_forall _ _) catalog_names_plain kb Hin)
    as (Hall & Hcomma & Hstrip & Hne & Hlen).
  rewrite <- Hnm in Hall, Hcomma, Hstrip, Hne, Hlen.
  assert (Str.count "," nm = 0) as Hnm_comma.
  { rewrite <- (count_strip_eq "," nm) by reflexivity.
    by rewrite <- count_comma_lower. }
  assert (Str.lower nm <> "all") as Hnm_all.
  { intros Heq. apply Hall. rewrite strip_lower, Heq. reflexivity. }
  assert (Str.truthy (Str.strip nm) = true) as Htruthy.
  { destruct (Str.strip nm); [exfalso; by apply Hne | reflexivity]. }
  assert (is_id_shaped (Str.strip nm) = false) as Hshape.
  { unfold is_id_shaped, Str.len. rewrite <- lower_length.
    by apply andb_false_iff; left; apply Nat.eqb_neq. }
  assert (KNOWLEDGE_BASES_BY_NAME !! Str.lower (Str.strip nm) = Some kb) as Hkb
    by by apply (by_name_lookup (Str.strip nm)).
  rewrite parse_items by exact Hnm_all.
  assert (selection_items nm = [Str.strip nm]) as ->.
  { unfold selection_items. rewrite (split_no_comma _ _ Hnm_comma). simpl.
    by rewrite Htruthy. }
  rewrite resolve_items_run. simpl.
  destruct (piece_found _ _ Hshape Hkb) as [-> ->].
  simpl. by rewrite app_nil_r.
Qed.

Lemma parse_catalog_name_witness :
  parse_knowledge_base_selection (Some "  pSYCHEDELICS tODAY ") []
  = (["c34bc3da-d466-4a2d-94c3-2e6fffbe6d1d"], []).
Proof.
  apply (parse_catalog_name
           (mkKnowledgeBase "c34bc3da-d466-4a2d-94c3-2e6fffbe6d1d"
              "Psychedelics Today" "images/logos/psychedelics_today.jpg"
              "#FFFFFF" "https://psychedelictoday.com")
           "  pSYCHEDELICS tODAY " []); [|reflexivity].
  apply list_elem_of_In. simpl. tauto.
Defined.

(** ** Joining two selections with a comma *)

Lemma split_comma sep s1 s2 :
  Str.split sep (s1 ++ String sep s2)%string
  = Str.split sep s1 ++ Str.split sep s2.
Proof.
  induction s1 as [|c s1 IH]; simpl.
  - by rewrite Ascii.eqb_refl.
  - destruct (Ascii.eqb c sep); [by rewrite IH|].
    rewrite IH. pose proof (split_nonempty sep s1) as Hne.
    by destruct (Str.split sep s1).
Qed.

Lemma count_append c s1 s2 :
  Str.count c (s1 ++ s2)%string = Str.count c s1 + Str.count c s2.
Proof.
  induction s1 as [|d s1 IH]; simpl; [reflexivity|]. rewrite IH. lia.
Qed.

Lemma selection_items_comma s1 s2 :
  selection_items (s1 ++ "," ++ s2)%string
  = selection_items s1 ++ selection_items s2.
Proof.
  unfold selection_items.
  change (s1 ++ "," ++ s2)%string with (s1 ++ String "," s2)%string.
  by rewrite split_comma, List.filter_app, map_app.
Qed.

(** X16. Two selections joined by a comma resolve as the first followed
    by the second, ids and warnings alike, provided neither of the two
    spells [all] on its own. *)
Theorem parse_comma s1 s2 out :
  Str.lower s1 <> "all" ->
  Str.lower s2 <> "all" ->
  parse_knowledge_base_selection (Some (s1 ++ "," ++ s2)%string) out
  = (fst (parse_knowledge_base_selection (Some s1) out)
       ++ fst (parse_knowledge_base_selection (Some s2)
                 (snd (parse_knowledge_base_selection (Some s1) out))),
     snd (parse_knowledge_base_selection (Some s2)
            (snd (parse_knowledge_base_selection (Some s1) out)))).
Proof.
  intros Hall1 Hall2.
  assert (Str.lower (s1 ++ "," ++ s2)%string <> "all") as Hall.
  { intros Heq. pose proof (count_comma_lower (s1 ++ "," ++ s2)%string) as Hc.
    rewrite Heq, count_append in Hc. simpl in Hc. lia. }
  rewrite !parse_items by assumption.
  rewrite selection_items_comma, !resolve_items_run, !flat_map_app.
  simpl. by rewrite app_assoc.
Qed.

Lemma parse_comma_witness :
  parse_knowledge_base_selection (Some "nobody, MAPS,Lucid News") []
  = (["f88d9d45-f25e-4051-8a84-a8d7873622b8";
      "f73bbef9-ea3b-4f78-956d-b5fc38de7699"],
     [warning "nobody"]).
Proof.
  apply (parse_comma "nobody, MAPS" "Lucid News" []); discriminate.
Defined.
